(** * univariate_analysis.py: null summaries and subplot grids

    A shallow embedding of [src/univariate_analysis.py].  The module is a thin
    layer over pandas and matplotlib/seaborn, so the file first fixes the
    fragment of those libraries that the module calls, following their
    documented behaviour, and then transcribes the module's own functions
    call by call.

    Conventions.
    - Python integers are [Z].
    - A float is an exact rational or NaN ([pyfloat]); the only float
      operation the module reaches is the quotient of a count by a length.
    - A [DataFrame] is stored by column, as pandas does; [index] holds the
      row labels and [columns] the column labels.
    - Code that can raise returns in the monad [M], which threads the state
      and keeps it when an exception escapes. *)

From Stdlib Require Import String ZArith QArith Bool Lia List.
From Stdlib Require Import Sorting.Sorted.
Import ListNotations.

Local Open Scope string_scope.
Local Open Scope list_scope.
Local Open Scope Z_scope.

(** ** Values *)

Inductive pyfloat : Type :=
| Fin (q : Q)
| NaN.

(** Cells of an input dataset. *)
Inductive value : Type :=
| VInt (z : Z)
| VFloat (f : pyfloat)
| VBool (b : bool)
| VStr (s : string)
| VNone.

(** Cells of a numeric result: an int64 or a float64. *)
Inductive num : Type :=
| NInt (z : Z)
| NFloat (f : pyfloat).

(** Row and column labels. *)
Inductive label : Type :=
| LInt (z : Z)
| LStr (s : string).

Definition label_eqb (a b : label) : bool :=
  match a, b with
  | LInt x, LInt y => Z.eqb x y
  | LStr x, LStr y => String.eqb x y
  | _, _ => false
  end.

Fixpoint labels_eqb (l1 l2 : list label) : bool :=
  match l1, l2 with
  | [], [] => true
  | a :: t1, b :: t2 => label_eqb a b && labels_eqb t1 t2
  | _, _ => false
  end.

(** Python's [==] on floats: NaN equals nothing, itself included. *)
Definition float_eq (a b : pyfloat) : Prop :=
  match a, b with
  | Fin p, Fin q => Qeq p q
  | _, _ => False
  end.

(** ** Series and frames *)

Record Series (V : Type) : Type := mkSeries {
  s_index : list label;
  s_values : list V;
  s_name : option string
}.
Arguments mkSeries {V} _ _ _.
Arguments s_index {V} _.
Arguments s_values {V} _.
Arguments s_name {V} _.

Record DataFrame (V : Type) : Type := mkFrame {
  index : list label;
  columns : list label;
  data : list (list V)
}.
Arguments mkFrame {V} _ _ _.
Arguments index {V} _.
Arguments columns {V} _.
Arguments data {V} _.

(** The result of [DataFrame.value_counts]: a Series of counts under a
    MultiIndex with one level per column of the frame.  [level_names] are the
    names of the levels and every entry pairs a key tuple with its count. *)
Record CountSeries : Type := mkCounts {
  level_names : list label;
  entries : list (list num * Z)
}.

Definition nrows {V} (df : DataFrame V) : nat := length (index df).
Definition ncols {V} (df : DataFrame V) : nat := length (columns df).

(** Shape invariant of a frame: one stored column per label, each as long as
    the index. *)
Definition wf {V} (df : DataFrame V) : Prop :=
  length (data df) = ncols df /\
  Forall (fun c => length c = nrows df) (data df).

(** ** The pandas fragment *)

(** [DataFrame.isnull]: None and NaN are missing. *)
Definition isnull_value (v : value) : bool :=
  match v with
  | VNone => true
  | VFloat NaN => true
  | _ => false
  end.

Definition isnull (df : DataFrame value) : DataFrame bool :=
  mkFrame (index df) (columns df) (map (map isnull_value) (data df)).

(** Sum of a boolean array, True counting for 1. *)
Fixpoint bool_sum (l : list bool) : Z :=
  match l with
  | [] => 0
  | b :: t => Z.b2z b + bool_sum t
  end.

(** Mean of a boolean array, as [nanops.nanmean] computes it: the sum over the
    count, and NaN when the count is zero. *)
Definition bool_mean (l : list bool) : pyfloat :=
  match length l with
  | O => NaN
  | S n => Fin (bool_sum l # Pos.of_succ_nat n)
  end.

(** Row [i] of a column-major table. *)
Definition row_at {V} (d : V) (cols : list (list V)) (i : nat) : list V :=
  map (fun c => nth i c d) cols.

Definition rows_of {V} (d : V) (df : DataFrame V) : list (list V) :=
  map (row_at d (data df)) (seq 0 (nrows df)).

(** [df.sum()] and [df.mean()] reduce every column (axis 0); the result is
    indexed by the column labels. *)
Definition sum_axis0 (df : DataFrame bool) : Series num :=
  mkSeries (columns df) (map (fun c => NInt (bool_sum c)) (data df)) None.

Definition mean_axis0 (df : DataFrame bool) : Series num :=
  mkSeries (columns df) (map (fun c => NFloat (bool_mean c)) (data df)) None.

(** [df.sum(axis = 1)] and [df.mean(axis = 1)] reduce every row; the result is
    indexed by the row labels. *)
Definition sum_axis1 (df : DataFrame bool) : Series num :=
  mkSeries (index df) (map (fun r => NInt (bool_sum r)) (rows_of false df)) None.

Definition mean_axis1 (df : DataFrame bool) : Series num :=
  mkSeries (index df) (map (fun r => NFloat (bool_mean r)) (rows_of false df)) None.

(** [Series.rename(name)] with a scalar: a new Series under that name. *)
Definition rename {V} (s : Series V) (name : string) : Series V :=
  mkSeries (s_index s) (s_values s) (Some name).

(** Column label a Series gets in [pd.concat(..., axis = 1)]: its name, or its
    position when it has none. *)
Definition concat_label {V} (pos : nat) (s : Series V) : label :=
  match s_name s with
  | Some n => LStr n
  | None => LInt (Z.of_nat pos)
  end.

Fixpoint concat_labels {V} (pos : nat) (objs : list (Series V)) : list label :=
  match objs with
  | [] => []
  | s :: t => concat_label pos s :: concat_labels (S pos) t
  end.

(** [pd.concat(objs, axis = 1)] on Series.  pandas raises on an empty list and
    otherwise aligns the Series on the union of their indexes.  When all the
    indexes are equal no realignment takes place and every Series becomes one
    column under the shared index; this is the case modelled.  [None] stands
    for the other cases (an empty list, or indexes that differ), which the
    module never reaches, see [column_concat_aligned] and
    [row_concat_aligned]. *)
Definition concat_axis1 {V} (objs : list (Series V)) : option (DataFrame V) :=
  match objs with
  | [] => None
  | s :: t =>
      if forallb (fun s' => labels_eqb (s_index s) (s_index s')) t
      then Some (mkFrame (s_index s) (concat_labels 0 objs) (map s_values objs))
      else None
  end.

(** *** Ordering of keys *)

Definition num_val (x : num) : option Q :=
  match x with
  | NInt z => Some (inject_Z z)
  | NFloat (Fin q) => Some q
  | NFloat NaN => None
  end.

Definition num_isnan (x : num) : bool :=
  match num_val x with
  | Some _ => false
  | None => true
  end.

(** Order used by pandas when it sorts or groups numbers: by value, NaN last
    and one NaN like another. *)
Definition num_cmp (a b : num) : comparison :=
  match num_val a, num_val b with
  | Some p, Some q => Qcompare p q
  | Some _, None => Lt
  | None, Some _ => Gt
  | None, None => Eq
  end.

(** Tuples compare lexicographically, first level first. *)
Fixpoint key_cmp (k1 k2 : list num) : comparison :=
  match k1, k2 with
  | [], [] => Eq
  | [], _ :: _ => Lt
  | _ :: _, [] => Gt
  | a :: t1, b :: t2 =>
      match num_cmp a b with
      | Eq => key_cmp t1 t2
      | c => c
      end
  end.

(** *** Grouping and sorting *)

(** One more row with key [k] in the sorted table of group sizes. *)
Fixpoint tally {K} (cmp : K -> K -> comparison) (k : K) (acc : list (K * Z))
  : list (K * Z) :=
  match acc with
  | [] => [(k, 1)]
  | (k', c) :: rest =>
      match cmp k k' with
      | Eq => (k', c + 1) :: rest
      | Lt => (k, 1) :: (k', c) :: rest
      | Gt => (k', c) :: tally cmp k rest
      end
  end.

(** [groupby(keys).size()]: the distinct keys in ascending order, each with
    the number of rows that carry it. *)
Definition group_size {K} (cmp : K -> K -> comparison) (rows : list K)
  : list (K * Z) :=
  fold_right (tally cmp) [] rows.

Fixpoint insert_by {A} (le : A -> A -> bool) (x : A) (l : list A) : list A :=
  match l with
  | [] => [x]
  | y :: t => if le x y then x :: y :: t else y :: insert_by le x t
  end.

Definition sort_by {A} (le : A -> A -> bool) (l : list A) : list A :=
  fold_right (insert_by le) [] l.

Definition cmp_leb {K} (cmp : K -> K -> comparison) (a b : K) : bool :=
  match cmp a b with
  | Gt => false
  | _ => true
  end.

(** [DataFrame.value_counts()] with its defaults: rows that hold a NaN are
    dropped ([dropna = True]), the remaining rows are grouped on all columns,
    and the groups are ordered by falling count ([sort = True]). *)
Definition value_counts (df : DataFrame num) : CountSeries :=
  let rows := filter (fun r => negb (existsb num_isnan r)) (rows_of (NInt 0) df) in
  mkCounts (columns df)
    (sort_by (fun a b => Z.leb (snd b) (snd a)) (group_size key_cmp rows)).

(** [Series.sort_index()]: ascending by key. *)
Definition sort_index (s : CountSeries) : CountSeries :=
  mkCounts (level_names s)
    (sort_by (fun a b => cmp_leb key_cmp (fst a) (fst b)) (entries s)).

(** ** The null summarizers (source lines 161-203) *)

Definition summarize_column_nulls (df : DataFrame value) : option (DataFrame num) :=
  concat_axis1 [
    rename (sum_axis0 (isnull df)) "rows_missing";
    rename (mean_axis0 (isnull df)) "percent_missing"
  ].

Definition summarize_row_nulls (df : DataFrame value) : option CountSeries :=
  option_map (fun f => sort_index (value_counts f))
    (concat_axis1 [
       rename (sum_axis1 (isnull df)) "columns_missing";
       rename (mean_axis1 (isnull df)) "percent_missing"
     ]).

(** ** Sample datasets *)

(** Three columns and five rows; column A misses two values. *)
Definition abc_frame : DataFrame value :=
  mkFrame [LInt 0; LInt 1; LInt 2; LInt 3; LInt 4]
          [LStr "A"; LStr "B"; LStr "C"]
          [ [VInt 1; VNone; VInt 3; VFloat NaN; VInt 5];
            [VInt 10; VInt 20; VInt 30; VInt 40; VInt 50];
            [VNone; VFloat (Fin 1); VFloat (Fin 2); VFloat (Fin 3); VFloat (Fin 4)] ].

(** Four rows; rows 0 and 1 miss one value each, rows 2 and 3 none. *)
Definition four_rows : DataFrame value :=
  mkFrame [LInt 0; LInt 1; LInt 2; LInt 3]
          [LStr "A"; LStr "B"]
          [ [VNone; VInt 2; VInt 3; VInt 4];
            [VInt 1; VNone; VInt 3; VInt 4] ].

(** One column and no rows. *)
Definition no_rows : DataFrame value :=
  mkFrame [] [LStr "A"] [ [] ].

(** One row and no columns. *)
Definition no_columns : DataFrame value :=
  mkFrame [LInt 0] [] [].

(** ** Exceptions and state *)

Inductive exn : Type :=
| KeyError
| TypeError
| IndexError
| ValueError
| AttributeError
| OutsideModel.

(** [OutsideModel] marks the two places where this file stops short of the
    libraries: a reference to an object that was never allocated, which Python
    cannot produce, and a [pd.concat] that has to realign.  No function of the
    module reaches either, see [store_column_summary] and
    [store_row_summary]. *)

(** A computation over a state [S] that returns an [A] or raises; the state
    reached is kept in both cases. *)
Definition M (S A : Type) : Type := S -> (A + exn) * S.

Definition ret {S A} (a : A) : M S A := fun s => (inl a, s).

Definition raise {S A} (e : exn) : M S A := fun s => (inr e, s).

Definition bind {S A B} (m : M S A) (k : A -> M S B) : M S B :=
  fun s =>
    match m s with
    | (inl a, s') => k a s'
    | (inr e, s') => (inr e, s')
    end.

Definition modify {S} (f : S -> S) : M S unit := fun s => (inl tt, f s).

Notation "x <- c ;; k" := (bind c (fun x => k))
  (at level 61, c at next level, right associativity).
Notation "' p <- c ;; k" := (bind c (fun x => match x with p => k end))
  (at level 61, p pattern, c at next level, right associativity).
Notation "c ;; k" := (bind c (fun _ => k))
  (at level 61, right associativity).

(** [for x in l: body(x)] *)
Fixpoint for_each {S A} (l : list A) (body : A -> M S unit) : M S unit :=
  match l with
  | [] => ret tt
  | x :: t => body x ;; for_each t body
  end.

Fixpoint enumerate_from {A} (i : Z) (l : list A) : list (Z * A) :=
  match l with
  | [] => []
  | x :: t => (i, x) :: enumerate_from (i + 1) t
  end.

Definition enumerate {A} (l : list A) : list (Z * A) := enumerate_from 0 l.

Definition len {A} (l : list A) : Z := Z.of_nat (length l).

Fixpoint update_nth {A} (n : nat) (f : A -> A) (l : list A) : list A :=
  match l, n with
  | [], _ => []
  | x :: t, O => f x :: t
  | x :: t, S n' => x :: update_nth n' f t
  end.

(** ** Column selection *)

(** What [df[column]] evaluates to: a Series when one column carries the
    label, a frame of all the matching columns when several do. *)
Inductive selection : Type :=
| SelSeries (values : list value)
| SelFrame (cols : list (list value)).

Fixpoint matching_columns (names : list label) (cols : list (list value))
  (column : string) : list (list value) :=
  match names, cols with
  | n :: names', c :: cols' =>
      if label_eqb n (LStr column)
      then c :: matching_columns names' cols' column
      else matching_columns names' cols' column
  | _, _ => []
  end.

Definition select (df : DataFrame value) (column : string) : option selection :=
  match matching_columns (columns df) (data df) column with
  | [] => None
  | [c] => Some (SelSeries c)
  | cs => Some (SelFrame cs)
  end.

(** [df[column]]; an unknown label raises KeyError. *)
Definition getitem {S} (df : DataFrame value) (column : string) : M S selection :=
  match select df column with
  | Some sel => ret sel
  | None => raise KeyError
  end.

(** ** The matplotlib and seaborn fragment *)

Inductive Artist : Type :=
| Hist (data : selection) (bins : Z)
| Box (data : selection).

(** One drawing surface.  [None] in a setting means it was never set and the
    rc default applies. *)
Record Axes : Type := mkAxes {
  artists : list Artist;
  labelrotation : option Z;
  title : string;
  use_offset : option bool;
  grid : option bool
}.

Definition blank_axes : Axes := mkAxes [] None "" None None.

(** A figure: its size, the shape of the subplot grid it was created with, its
    axes in creation order and the position of the current one. *)
Record Figure : Type := mkFigure {
  figsize : Q * Q;
  grid_shape : Z * Z;
  axes : list Axes;
  current_axes : nat;
  tight : bool;
  shown : bool
}.

(** The state of [matplotlib.pyplot]: the open figures in creation order.  The
    current figure is the one created last. *)
Record pyplot : Type := mkPyplot {
  figs : list Figure
}.

(** What [plt.subplots] hands back for the axes: one Axes, referred to by the
    number of its figure and its position there, or a one- or two-dimensional
    array of such. *)
Inductive axobj : Type :=
| AxRef (fig : nat) (pos : nat)
| Ax1D (items : list (nat * nat))
| Ax2D (rows : list (list (nat * nat))).

Definition grid_row (fig : nat) (ncols : nat) (r : nat) : list (nat * nat) :=
  map (fun c => (fig, (r * ncols + c)%nat)) (seq 0 ncols).

(** The array of a [nrows] x [ncols] grid under [squeeze = True], the default:
    a single Axes for 1 x 1, a one-dimensional array when there is one row or
    one column, a two-dimensional array otherwise. *)
Definition squeeze (fig : nat) (nrows ncols : nat) : axobj :=
  match nrows, ncols with
  | 1%nat, 1%nat => AxRef fig 0
  | 1%nat, _ => Ax1D (grid_row fig ncols 0)
  | _, 1%nat => Ax1D (map (fun r => (fig, r)) (seq 0 nrows))
  | _, _ => Ax2D (map (grid_row fig ncols) (seq 0 nrows))
  end.

(** [plt.subplots(nrows, ncols, figsize)]: a new figure, which becomes the
    current one; its axes are created row by row and each becomes the current
    axes in turn, so the last one of the last row is current at the end. *)
Definition plt_subplots (nrows ncols : Z) (size : Q * Q) : M pyplot (nat * axobj) :=
  fun st =>
    if (nrows <=? 0) || (ncols <=? 0) then (inr ValueError, st)
    else
      let fig := length (figs st) in
      let count := (Z.to_nat nrows * Z.to_nat ncols)%nat in
      let f := mkFigure size (nrows, ncols) (repeat blank_axes count)
                        (count - 1) false false in
      (inl (fig, squeeze fig (Z.to_nat nrows) (Z.to_nat ncols)),
       mkPyplot (figs st ++ [f])).

(** Position [k] of a sequence of length [n] as Python resolves it, negative
    positions counting from the end. *)
Definition py_index {A} (items : list A) (k : Z) : option A :=
  let k' := if k <? 0 then k + len items else k in
  if k' <? 0 then None else nth_error items (Z.to_nat k').

(** [a[k]] on what [plt.subplots] returned.  An array is indexed as numpy
    does; an Axes is not subscriptable. *)
Definition ax_getitem {S} (a : axobj) (k : Z) : M S axobj :=
  match a with
  | AxRef _ _ => raise TypeError
  | Ax1D items =>
      match py_index items k with
      | Some (fig, pos) => ret (AxRef fig pos)
      | None => raise IndexError
      end
  | Ax2D rows =>
      match py_index rows k with
      | Some r => ret (Ax1D r)
      | None => raise IndexError
      end
  end.

Definition set_axes (l : list Axes) (g : Figure) : Figure :=
  mkFigure (figsize g) (grid_shape g) l (current_axes g) (tight g) (shown g).

Definition set_tight (b : bool) (g : Figure) : Figure :=
  mkFigure (figsize g) (grid_shape g) (axes g) (current_axes g) b (shown g).

Definition set_shown (b : bool) (g : Figure) : Figure :=
  mkFigure (figsize g) (grid_shape g) (axes g) (current_axes g) (tight g) b.

Definition update_axes (fig pos : nat) (f : Axes -> Axes) (st : pyplot) : pyplot :=
  mkPyplot (update_nth fig (fun g => set_axes (update_nth pos f (axes g)) g)
                       (figs st)).

(** A method called on [a], which has to be an Axes. *)
Definition on_axes (a : axobj) (f : Axes -> Axes) : M pyplot unit :=
  match a with
  | AxRef fig pos => modify (update_axes fig pos f)
  | Ax1D _ | Ax2D _ => raise AttributeError
  end.

Definition add_artist (x : Artist) (a : Axes) : Axes :=
  mkAxes (artists a ++ [x]) (labelrotation a) (title a) (use_offset a) (grid a).

Definition set_labelrotation (r : Z) (a : Axes) : Axes :=
  mkAxes (artists a) (Some r) (title a) (use_offset a) (grid a).

Definition set_title (t : string) (a : Axes) : Axes :=
  mkAxes (artists a) (labelrotation a) t (use_offset a) (grid a).

Definition set_use_offset (b : bool) (a : Axes) : Axes :=
  mkAxes (artists a) (labelrotation a) (title a) (Some b) (grid a).

Definition set_grid (b : bool) (a : Axes) : Axes :=
  mkAxes (artists a) (labelrotation a) (title a) (use_offset a) (Some b).

(** [sns.histplot(data = ..., bins = ..., ax = ...)] draws on the Axes it is
    given and leaves the current axes alone. *)
Definition sns_histplot (sel : selection) (bins : Z) (ax : axobj) : M pyplot unit :=
  on_axes ax (add_artist (Hist sel bins)).

(** [sns.boxplot(data = df, x = ..., ax = ...)]; seaborn rejects a name that
    is not a column of [df] with ValueError. *)
Definition sns_boxplot (df : DataFrame value) (x : string) (ax : axobj) : M pyplot unit :=
  match select df x with
  | Some sel => on_axes ax (add_artist (Box sel))
  | None => raise ValueError
  end.

(** [ax.tick_params(labelrotation = ...)] *)
Definition tick_params (ax : axobj) (rotation : Z) : M pyplot unit :=
  on_axes ax (set_labelrotation rotation).

Definition default_figsize : Q * Q := (64 # 10, 48 # 10)%Q.

(** [plt.gcf()]: the current figure, created when there is none. *)
Definition gcf : M pyplot nat :=
  fun st =>
    match figs st with
    | [] => (inl 0%nat,
             mkPyplot [mkFigure default_figsize (1, 1) [] 0 false false])
    | _ :: _ => (inl (length (figs st) - 1)%nat, st)
    end.

(** [plt.gca()]: the current axes of the current figure, created when the
    figure has none. *)
Definition gca : M pyplot axobj :=
  fig <- gcf ;;
  fun st =>
    match nth_error (figs st) fig with
    | Some g =>
        match axes g with
        | [] =>
            (inl (AxRef fig 0),
             mkPyplot (update_nth fig
               (fun g => mkFigure (figsize g) (grid_shape g) [blank_axes] 0
                                  (tight g) (shown g))
               (figs st)))
        | _ :: _ => (inl (AxRef fig (current_axes g)), st)
        end
    | None => (inl (AxRef fig 0), st)
    end.

(** The pyplot functions act on the current axes, see [gca]. *)
Definition plt_title (t : string) : M pyplot unit :=
  ax <- gca ;; on_axes ax (set_title t).

Definition plt_ticklabel_format (useOffset : bool) : M pyplot unit :=
  ax <- gca ;; on_axes ax (set_use_offset useOffset).

Definition plt_grid (b : bool) : M pyplot unit :=
  ax <- gca ;; on_axes ax (set_grid b).

(** [plt.tight_layout()] adjusts the current figure. *)
Definition plt_tight_layout : M pyplot unit :=
  fig <- gcf ;;
  modify (fun st => mkPyplot (update_nth fig (set_tight true) (figs st))).

(** [plt.show()] displays all open figures. *)
Definition plt_show : M pyplot unit :=
  modify (fun st => mkPyplot (map (set_shown true) (figs st))).

(** ** The plotting functions (source lines 30-133) *)

Definition _create_sub_plots (num_features : Z) : M pyplot (nat * axobj) :=
  let figure_width := 14 in
  let figure_height := ((num_features / 3) + 1) * 3 in
  let num_rows := num_features / 3 + 1 in
  let num_columns := 3 in
  '(fig, ax) <- plt_subplots num_rows num_columns
                  (inject_Z figure_width, inject_Z figure_height) ;;
  ret (fig, ax).

Definition get_hist (df : DataFrame value) (columns : list string) : M pyplot unit :=
  '(fig, ax) <- _create_sub_plots (len columns) ;;
  let num_columns := 3 in
  for_each (enumerate columns) (fun '(index, column) =>
    data <- getitem df column ;;
    row <- ax_getitem ax (index / num_columns) ;;
    cell <- ax_getitem row (index mod num_columns) ;;
    sns_histplot data 5 cell ;;
    row <- ax_getitem ax (index / num_columns) ;;
    cell <- ax_getitem row (index mod num_columns) ;;
    tick_params cell 30 ;;
    plt_title column ;;
    plt_ticklabel_format false ;;
    plt_grid false ;;
    plt_tight_layout) ;;
  plt_show.

Definition get_box (df : DataFrame value) (columns : list string) : M pyplot unit :=
  '(fig, ax) <- _create_sub_plots (len columns) ;;
  let num_columns := 3 in
  for_each (enumerate columns) (fun '(index, column) =>
    row <- ax_getitem ax (index / num_columns) ;;
    cell <- ax_getitem row (index mod num_columns) ;;
    sns_boxplot df column cell ;;
    row <- ax_getitem ax (index / num_columns) ;;
    cell <- ax_getitem row (index mod num_columns) ;;
    tick_params cell 30 ;;
    plt_title column ;;
    plt_ticklabel_format false ;;
    plt_grid false ;;
    plt_tight_layout) ;;
  plt_show.

Definition no_figures : pyplot := mkPyplot [].

(** ** Objects held by reference *)

(** The summarizers again, on objects that live in a store and are passed by
    address, as Python passes them.  Every pandas method called by the module
    returns a new object; the store makes explicit what each call reads and
    what it allocates. *)

Inductive pyobj : Type :=
| ObjFrame (df : DataFrame value)
| ObjMask (df : DataFrame bool)
| ObjSeries (s : Series num)
| ObjNumFrame (df : DataFrame num)
| ObjCounts (s : CountSeries).

Definition store : Type := list pyobj.

Definition alloc (o : pyobj) : M store nat :=
  fun h => (inl (length h), h ++ [o]).

Definition deref (a : nat) : M store pyobj :=
  fun h =>
    match nth_error h a with
    | Some o => (inl o, h)
    | None => (inr OutsideModel, h)
    end.

Fixpoint deref_series (addrs : list nat) : M store (list (Series num)) :=
  match addrs with
  | [] => ret []
  | a :: t =>
      o <- deref a ;;
      match o with
      | ObjSeries s => rest <- deref_series t ;; ret (s :: rest)
      | _ => raise TypeError
      end
  end.

Module Store.

Definition isnull (a : nat) : M store nat :=
  o <- deref a ;;
  match o with
  | ObjFrame df => alloc (ObjMask (isnull df))
  | _ => raise AttributeError
  end.

Definition sum (a : nat) (axis : Z) : M store nat :=
  o <- deref a ;;
  match o with
  | ObjMask df =>
      if axis =? 0 then alloc (ObjSeries (sum_axis0 df))
      else if axis =? 1 then alloc (ObjSeries (sum_axis1 df))
      else raise ValueError
  | _ => raise AttributeError
  end.

Definition mean (a : nat) (axis : Z) : M store nat :=
  o <- deref a ;;
  match o with
  | ObjMask df =>
      if axis =? 0 then alloc (ObjSeries (mean_axis0 df))
      else if axis =? 1 then alloc (ObjSeries (mean_axis1 df))
      else raise ValueError
  | _ => raise AttributeError
  end.

Definition rename (a : nat) (name : string) : M store nat :=
  o <- deref a ;;
  match o with
  | ObjSeries s => alloc (ObjSeries (rename s name))
  | _ => raise AttributeError
  end.

Definition concat (objs : list nat) : M store nat :=
  ss <- deref_series objs ;;
  match ss with
  | [] => raise ValueError
  | _ :: _ =>
      match concat_axis1 ss with
      | Some f => alloc (ObjNumFrame f)
      | None => raise OutsideModel
      end
  end.

Definition value_counts (a : nat) : M store nat :=
  o <- deref a ;;
  match o with
  | ObjNumFrame f => alloc (ObjCounts (value_counts f))
  | _ => raise AttributeError
  end.

Definition sort_index (a : nat) : M store nat :=
  o <- deref a ;;
  match o with
  | ObjCounts s => alloc (ObjCounts (sort_index s))
  | _ => raise AttributeError
  end.

Definition summarize_column_nulls (df : nat) : M store nat :=
  mask1 <- isnull df ;;
  sums <- sum mask1 0 ;;
  rows_missing <- rename sums "rows_missing" ;;
  mask2 <- isnull df ;;
  means <- mean mask2 0 ;;
  percent_missing <- rename means "percent_missing" ;;
  concat [rows_missing; percent_missing].

Definition summarize_row_nulls (df : nat) : M store nat :=
  mask1 <- isnull df ;;
  sums <- sum mask1 1 ;;
  columns_missing <- rename sums "columns_missing" ;;
  mask2 <- isnull df ;;
  means <- mean mask2 1 ;;
  percent_missing <- rename means "percent_missing" ;;
  frame <- concat [columns_missing; percent_missing] ;;
  counts <- value_counts frame ;;
  sort_index counts.

End Store.

(** ** Vocabulary of the properties *)

(** Number of missing cells in a column or a row of the dataset. *)
Definition count_missing (l : list value) : Z :=
  Z.of_nat (length (filter isnull_value l)).

(** The float quotient of a count by a length; 0 / 0 is NaN. *)
Definition ratio (c : Z) (n : nat) : pyfloat :=
  match n with
  | O => NaN
  | S m => Fin (c # Pos.of_succ_nat m)
  end.

Fixpoint position (l : list label) (x : label) : option nat :=
  match l with
  | [] => None
  | y :: t => if label_eqb y x then Some O else option_map S (position t x)
  end.

(** [df[column][row]] by labels. *)
Definition cell {V} (df : DataFrame V) (column row : label) : option V :=
  match position (columns df) column, position (index df) row with
  | Some j, Some i =>
      match nth_error (data df) j with
      | Some c => nth_error c i
      | None => None
      end
  | _, _ => None
  end.

(** How many of the keys in [rows] compare equal to [k]. *)
Fixpoint occurrences {K} (cmp : K -> K -> comparison) (k : K) (rows : list K) : Z :=
  match rows with
  | [] => 0
  | r :: t =>
      match cmp r k with
      | Eq => 1 + occurrences cmp k t
      | _ => occurrences cmp k t
      end
  end.

(** Sum of the counts that a table of group sizes holds under keys equal to
    [k]. *)
Fixpoint weight {K} (cmp : K -> K -> comparison) (k : K) (acc : list (K * Z)) : Z :=
  match acc with
  | [] => 0
  | (k', c) :: rest =>
      match cmp k' k with
      | Eq => c + weight cmp k rest
      | _ => weight cmp k rest
      end
  end.

(** No two entries of the table have equal keys. *)
Fixpoint keys_distinct {K} (cmp : K -> K -> comparison) (l : list (K * Z)) : Prop :=
  match l with
  | [] => True
  | x :: t => Forall (fun y => cmp (fst x) (fst y) <> Eq) t /\ keys_distinct cmp t
  end.

(** Entries in strictly ascending order of their keys. *)
Definition ascending {K} (cmp : K -> K -> comparison) (l : list (K * Z)) : Prop :=
  StronglySorted (fun a b => cmp (fst a) (fst b) = Lt) l.

(** The cells of row [i] of the dataset.  The default, a value that is
    present, is never read in a well-shaped frame. *)
Definition row_cells (df : DataFrame value) (i : nat) : list value :=
  row_at (VInt 0) (data df) i.

(** The (count, fraction) pair of row [i] of the dataset: the number of its
    missing cells and that number over the number of columns. *)
Definition row_pair (df : DataFrame value) (i : nat) : list num :=
  let c := count_missing (row_cells df i) in
  [NInt c; NFloat (ratio c (ncols df))].

Definition row_pairs (df : DataFrame value) : list (list num) :=
  map (row_pair df) (seq 0 (nrows df)).

(** What the row-wise summary is said to be: entries in ascending order of
    (count, fraction), each a pair of some row with the number of rows that
    have this pair, and an entry for the pair of every row. *)
Definition row_groups (df : DataFrame value) (s : CountSeries) : Prop :=
  level_names s = [LStr "columns_missing"; LStr "percent_missing"] /\
  ascending key_cmp (entries s) /\
  (forall k c, In (k, c) (entries s) ->
     In k (row_pairs df) /\ 1 <= c /\ c = occurrences key_cmp k (row_pairs df)) /\
  (forall i, (i < nrows df)%nat -> exists c, In (row_pair df i, c) (entries s)).

(** The column of a frame under a name. *)
Definition get_column {V} (df : DataFrame V) (name : string) : option (list V) :=
  match position (columns df) (LStr name) with
  | Some j => nth_error (data df) j
  | None => None
  end.

(** A float cell that equals 0.0. *)
Definition is_zero_float (x : num) : Prop :=
  exists f, x = NFloat f /\ float_eq f (Fin 0).

(** No cell of the dataset is missing. *)
Definition no_missing (df : DataFrame value) : Prop :=
  Forall (Forall (fun v => isnull_value v = false)) (data df).

(** In the column-wise summary, a count of 0 goes with a fraction of 0.0. *)
Definition zero_count_zero_percent (r : DataFrame num) : Prop :=
  exists rm pm,
    get_column r "rows_missing" = Some rm /\
    get_column r "percent_missing" = Some pm /\
    length rm = length pm /\
    forall j x y,
      nth_error rm j = Some x -> nth_error pm j = Some y ->
      x = NInt 0 -> is_zero_float y.

(** In the row-wise summary, a group with count 0 has fraction 0.0. *)
Definition zero_count_zero_percent_groups (s : CountSeries) : Prop :=
  forall x y c, In ([x; y], c) (entries s) -> x = NInt 0 -> is_zero_float y.

(** Every fraction of the column-wise summary is 0.0. *)
Definition all_percent_zero (r : DataFrame num) : Prop :=
  exists pm, get_column r "percent_missing" = Some pm /\ Forall is_zero_float pm.

(** Every group of the row-wise summary has fraction 0.0. *)
Definition all_groups_zero (s : CountSeries) : Prop :=
  forall x y c, In ([x; y], c) (entries s) -> is_zero_float y.

(** What is said of counts of 0 in both summaries of a dataset. *)
Definition nan_safe (df : DataFrame value) : Prop :=
  exists r s,
    summarize_column_nulls df = Some r /\
    summarize_row_nulls df = Some s /\
    zero_count_zero_percent r /\
    zero_count_zero_percent_groups s /\
    (no_missing df -> all_percent_zero r /\ all_groups_zero s).

(** The [columns] attribute of an object; a frame has it, a Series has not. *)
Definition obj_columns (o : pyobj) : option (list label) :=
  match o with
  | ObjFrame df => Some (columns df)
  | ObjMask df => Some (columns df)
  | ObjNumFrame df => Some (columns df)
  | ObjSeries _ => None
  | ObjCounts _ => None
  end.

(** The axes array is two-dimensional with the given numbers of rows and
    columns. *)
Definition grid_2d (a : axobj) (nrows ncols : Z) : Prop :=
  exists rows,
    a = Ax2D rows /\ len rows = nrows /\ Forall (fun r => len r = ncols) rows.

(** The Axes in row [r] and column [c] of the grid of figure [fig]. *)
Definition cell_axes (st : pyplot) (fig : nat) (r c : Z) : option Axes :=
  match nth_error (figs st) fig with
  | Some g => nth_error (axes g) (Z.to_nat (r * snd (grid_shape g) + c))
  | None => None
  end.

(** An Axes that holds one plot and had its tick labels rotated, and nothing
    else. *)
Definition drawn (x : Artist) : Axes := mkAxes [x] (Some 30) "" None None.

(** An Axes without a plot that was given a title and had offset notation and
    the grid turned off. *)
Definition titled (t : string) : Axes := mkAxes [] None t (Some false) (Some false).

(** What one pass of the loop of a renderer does to the figure: the plot [x]
    and the rotation go to the Axes at position [k], the title [t] and the
    two settings to the current axes. *)
Definition loop_pass (x : Artist) (t : string) (k : nat) (g : Figure) : Figure :=
  let cur := current_axes g in
  set_tight true
    (set_axes
       (update_nth cur (set_grid false)
          (update_nth cur (set_use_offset false)
             (update_nth cur (set_title t)
                (update_nth k (set_labelrotation 30)
                   (update_nth k (add_artist x) (axes g))))))
       g).

(** State of the figure of a renderer after the columns [done]: every one
    of them is drawn at its position, the Axes behind them are blank, and the
    current axes, the last of the [3 * rows], carries the title of the column
    drawn last. *)
Definition loop_invariant (df : DataFrame value) (art : selection -> Artist)
  (rows : nat) (done : list string) (g : Figure) : Prop :=
  length (axes g) = (3 * rows)%nat /\
  current_axes g = (3 * rows - 1)%nat /\
  (forall j c sel,
     nth_error done j = Some c -> select df c = Some sel ->
     nth_error (axes g) j = Some (drawn (art sel))) /\
  (forall j, (length done <= j < 3 * rows - 1)%nat ->
     nth_error (axes g) j = Some blank_axes) /\
  nth_error (axes g) (3 * rows - 1) = Some (last (map titled done) blank_axes).

(** In figure [fig] every column of the list is drawn in the cell of its
    position, with rotated tick labels and nothing else set, and the cell at
    the end of the last row, where nothing is drawn, carries the title of
    the last column. *)
Definition columns_drawn (df : DataFrame value) (art : selection -> Artist)
  (columns : list string) (fig : nat) (st : pyplot) : Prop :=
  (forall i c sel,
     nth_error columns i = Some c -> select df c = Some sel ->
     cell_axes st fig (Z.of_nat i / 3) (Z.of_nat i mod 3) =
       Some (drawn (art sel))) /\
  cell_axes st fig (len columns / 3) 2 = Some (titled (last columns "")).

(** The figure that [_create_sub_plots] creates for a given count. *)
Definition fresh_figure (num_features : Z) : Figure :=
  let rows := num_features / 3 + 1 in
  mkFigure (inject_Z 14, inject_Z (rows * 3)) (rows, 3)
           (repeat blank_axes (Z.to_nat rows * 3)) (Z.to_nat rows * 3 - 1)
           false false.

(** Ceiling of [n / d] for a positive [d]. *)
Definition ceil_div (n d : Z) : Z := (n + d - 1) / d.

(** The grid created for [n] features has 3 columns and ceil(n / 3) rows. *)
Definition rows_are_ceiling (n : Z) : Prop :=
  forall st, exists fig ax st' g,
    _create_sub_plots n st = (inl (fig, ax), st') /\
    nth_error (figs st') fig = Some g /\
    grid_shape g = (ceil_div n 3, 3).

(** ** The single-variable view (source lines 137-157) *)

(** [fig.suptitle] sets a title on the figure itself.  These titles are kept
    beside the pyplot state, each with the number of its figure, the newest
    first. *)
Record canvas : Type := mkCanvas {
  plots : pyplot;
  suptitles : list (nat * string)
}.

(** A pyplot computation run on the pyplot part of the canvas. *)
Definition lift {A} (m : M pyplot A) : M canvas A :=
  fun c =>
    match m (plots c) with
    | (r, st) => (r, mkCanvas st (suptitles c))
    end.

Definition fig_suptitle (fig : nat) (t : string) : M canvas unit :=
  modify (fun c => mkCanvas (plots c) ((fig, t) :: suptitles c)).

(** [sns.histplot] with a bin count chosen by the caller: numpy rejects a
    count that is not positive before anything is drawn. *)
Definition sns_histplot_bins (sel : selection) (bins : Z) (ax : axobj)
  : M pyplot unit :=
  if bins <=? 0 then raise ValueError else sns_histplot sel bins ax.

Definition plot_single_variable (df : DataFrame value) (feature : string)
  (title : string) (histplot_bins : Z) : M canvas unit :=
  '(fig, ax) <- lift (plt_subplots 1 2 (inject_Z 14, inject_Z 4)) ;;
  fig_suptitle fig title ;;
  data <- getitem df feature ;;
  left <- ax_getitem ax 0 ;;
  lift (sns_histplot_bins data histplot_bins left) ;;
  right <- ax_getitem ax 1 ;;
  lift (sns_boxplot df feature right) ;;
  lift plt_show.

(** The call with the defaults of the source, [title = ''] and
    [histplot_bins = 50]. *)
Definition plot_single_variable_default (df : DataFrame value) (feature : string)
  : M canvas unit :=
  plot_single_variable df feature "" 50.

(** ** Vocabulary of the further properties *)

(** An Axes that holds one plot and nothing else. *)
Definition plain (x : Artist) : Axes := mkAxes [x] None "" None None.

(** The two-panel figure of [plot_single_variable] before anything is drawn,
    and once both panels are drawn and the figure is displayed. *)
Definition blank_panels : Figure :=
  mkFigure (inject_Z 14, inject_Z 4) (1, 2) [blank_axes; blank_axes] 1 false false.

Definition drawn_panels (sel : selection) (bins : Z) : Figure :=
  mkFigure (inject_Z 14, inject_Z 4) (1, 2)
           [plain (Hist sel bins); plain (Box sel)] 1 false true.

(** Sum of the counts of a table of group sizes. *)
Fixpoint total_count {K} (l : list (K * Z)) : Z :=
  match l with
  | [] => 0
  | (_, c) :: t => c + total_count t
  end.

(** The count that a key of the row-wise summary starts with. *)
Definition key_count (k : list num) : Z :=
  match k with
  | NInt c :: _ => c
  | _ => 0
  end.

(** Missing cells over all groups: the count of each group times its size. *)
Fixpoint total_missing (l : list (list num * Z)) : Z :=
  match l with
  | [] => 0
  | (k, c) :: t => key_count k * c + total_missing t
  end.

(** Sum of an integer column of a numeric frame. *)
Fixpoint int_sum (l : list num) : Z :=
  match l with
  | [] => 0
  | NInt c :: t => c + int_sum t
  | NFloat _ :: t => int_sum t
  end.

(** An integer cell between 0 and [n]. *)
Definition is_count_upto (n : Z) (x : num) : Prop :=
  exists c, x = NInt c /\ 0 <= c <= n.

(** A float cell that is a number between 0 and 1. *)
Definition is_fraction (x : num) : Prop :=
  exists q, x = NFloat (Fin q) /\ (0 <= q)%Q /\ (q <= 1)%Q.

(** A renderer that stopped in the column behind [done], in a list of [n]
    columns: its figure was added behind those of [st] and is not displayed,
    the columns of [done] are drawn at their positions, and the cells of the
    remaining columns are blank. *)
Definition stopped_after (df : DataFrame value) (art : selection -> Artist)
  (done : list string) (n : nat) (st st' : pyplot) : Prop :=
  exists g,
    figs st' = figs st ++ [g] /\
    shown g = false /\
    (forall i c sel,
       nth_error done i = Some c -> select df c = Some sel ->
       cell_axes st' (length (figs st)) (Z.of_nat i / 3) (Z.of_nat i mod 3) =
         Some (drawn (art sel))) /\
    (forall i, (length done <= i < n)%nat ->
       cell_axes st' (length (figs st)) (Z.of_nat i / 3) (Z.of_nat i mod 3) =
         Some blank_axes).

(** A renderer that completed on [n] columns: one figure was added behind
    those of [st], sized for its rows and laid out tightly, and all figures
    are displayed, the earlier ones otherwise unchanged. *)
Definition completed_on (n : Z) (st st' : pyplot) : Prop :=
  exists g,
    figs st' = map (set_shown true) (figs st) ++ [g] /\
    grid_shape g = (n / 3 + 1, 3) /\
    figsize g = (inject_Z 14, inject_Z ((n / 3 + 1) * 3)) /\
    len (axes g) = (n / 3 + 1) * 3 /\
    tight g = true /\
    shown g = true.

(** Sum of a list of integers. *)
Definition zsum (l : list Z) : Z := fold_right Z.add 0 l.

(** A key of the row-wise summary within its bounds: a count of missing
    cells between 0 and [ncols] and a fraction between 0 and 1, with a group
    size between 1 and [nrows]. *)
Definition group_in_bounds (ncols nrows : Z) (e : list num * Z) : Prop :=
  exists m f,
    fst e = [m; f] /\ is_count_upto ncols m /\ is_fraction f /\
    1 <= snd e <= nrows.

(** * Properties *)

(** ** Lists and the pandas fragment *)

Lemma label_eqb_refl (a : label) : label_eqb a a = true.
Proof.
  destruct a; simpl.
  - apply Z.eqb_refl.
  - apply String.eqb_refl.
Qed.

Lemma labels_eqb_refl (l : list label) : labels_eqb l l = true.
Proof.
  induction l as [|a l IH]; simpl; [reflexivity|].
  now rewrite label_eqb_refl, IH.
Qed.

Lemma bool_sum_isnull (l : list value) :
  bool_sum (map isnull_value l) = count_missing l.
Proof.
  unfold count_missing.
  induction l as [|v l IH]; simpl; [reflexivity|].
  rewrite IH. destruct (isnull_value v); cbn [Z.b2z length]; lia.
Qed.

Lemma bool_mean_isnull (l : list value) :
  bool_mean (map isnull_value l) = ratio (count_missing l) (length l).
Proof.
  unfold bool_mean, ratio. rewrite length_map, bool_sum_isnull. reflexivity.
Qed.

Lemma count_missing_bounds (l : list value) :
  0 <= count_missing l <= Z.of_nat (length l).
Proof.
  unfold count_missing. pose proof (filter_length_le isnull_value l). lia.
Qed.

Lemma row_at_map {A B} (f : A -> B) (d : A) (cols : list (list A)) (i : nat) :
  row_at (f d) (map (map f) cols) i = map f (row_at d cols i).
Proof.
  unfold row_at. rewrite !map_map. apply map_ext. intro c. apply map_nth.
Qed.

Lemma row_at_length {V} (d : V) (cols : list (list V)) (i : nat) :
  length (row_at d cols i) = length cols.
Proof. unfold row_at. apply length_map. Qed.

(** The two Series that [summarize_column_nulls] concatenates share the index
    of column labels, so [pd.concat] has nothing to realign. *)
Lemma column_concat_aligned (df : DataFrame value) :
  s_index (rename (sum_axis0 (isnull df)) "rows_missing") =
  s_index (rename (mean_axis0 (isnull df)) "percent_missing").
Proof. reflexivity. Qed.

(** Likewise in [summarize_row_nulls], on the row labels. *)
Lemma row_concat_aligned (df : DataFrame value) :
  s_index (rename (sum_axis1 (isnull df)) "columns_missing") =
  s_index (rename (mean_axis1 (isnull df)) "percent_missing").
Proof. reflexivity. Qed.

Lemma summarize_column_nulls_eq (df : DataFrame value) :
  summarize_column_nulls df =
  Some (mkFrame (columns df)
          [LStr "rows_missing"; LStr "percent_missing"]
          [ map (fun c => NInt (count_missing c)) (data df);
            map (fun c => NFloat (ratio (count_missing c) (length c))) (data df) ]).
Proof.
  unfold summarize_column_nulls, concat_axis1. simpl.
  rewrite labels_eqb_refl. simpl. rewrite !map_map.
  do 3 f_equal.
  - apply map_ext. intro c. now rewrite bool_sum_isnull.
  - f_equal. apply map_ext. intro c. now rewrite bool_mean_isnull.
Qed.

(** ** Column-wise summary *)

(** C1.  For every well-shaped dataset [summarize_column_nulls] returns a frame
    with one row per column of the dataset, labelled by the dataset's columns
    in their order, whose column [rows_missing] holds the number of missing
    cells of each column and whose column [percent_missing] holds that number
    over the number of rows (NaN when there is no row to divide by).  On the
    sample with columns A, B, C and five rows, two of them missing in A,
    [rows_missing['A']] is 2 and [percent_missing['A']] equals 0.4. *)
Theorem summarize_column_nulls_spec (df : DataFrame value) (Hwf : wf df) :
  (exists r,
     summarize_column_nulls df = Some r /\
     wf r /\
     index r = columns df /\
     columns r = [LStr "rows_missing"; LStr "percent_missing"] /\
     data r =
       [ map (fun c => NInt (count_missing c)) (data df);
         map (fun c => NFloat (ratio (count_missing c) (nrows df))) (data df) ]) /\
  (exists r f,
     summarize_column_nulls abc_frame = Some r /\
     cell r (LStr "rows_missing") (LStr "A") = Some (NInt 2) /\
     cell r (LStr "percent_missing") (LStr "A") = Some (NFloat f) /\
     float_eq f (Fin 0.4)).
Proof.
  split.
  - destruct Hwf as [Hlen Hcols].
    eexists. split; [apply summarize_column_nulls_eq|].
    repeat split; simpl.
    + repeat constructor; rewrite length_map; unfold nrows; simpl; exact Hlen.
    + do 2 f_equal. apply map_ext_in. intros c Hc.
      rewrite Forall_forall in Hcols. now rewrite (Hcols c Hc).
  - eexists. eexists. split; [reflexivity|].
    repeat split; reflexivity.
Qed.

Lemma abc_frame_wf : wf abc_frame.
Proof. split; [reflexivity|]. repeat constructor. Qed.

Lemma summarize_column_nulls_spec_witness :
  wf abc_frame /\
  exists r,
    summarize_column_nulls abc_frame = Some r /\
    index r = [LStr "A"; LStr "B"; LStr "C"].
Proof.
  split; [exact abc_frame_wf|].
  destruct (summarize_column_nulls_spec abc_frame abc_frame_wf)
    as [[r (Hr & _ & Hi & _)] _].
  exists r. split; [exact Hr | exact Hi].
Defined.

(** ** Grouping and sorting under a total preorder *)

Section Grouping.

Variable K : Type.
Variable cmp : K -> K -> comparison.

Hypothesis cmp_refl : forall a, cmp a a = Eq.
Hypothesis cmp_antisym : forall a b, cmp b a = CompOpp (cmp a b).
Hypothesis cmp_trans : forall a b c, cmp a b = Lt -> cmp b c = Lt -> cmp a c = Lt.
Hypothesis cmp_eq_compat : forall a b c, cmp a b = Eq -> cmp a c = cmp b c.

Let entry : Type := (K * Z)%type.
Let kle (a b : entry) : bool := cmp_leb cmp (fst a) (fst b).
Let apart (a b : entry) : Prop := cmp (fst a) (fst b) <> Eq.

Lemma cmp_gt_lt a b : cmp a b = Gt -> cmp b a = Lt.
Proof. intro H. rewrite (cmp_antisym a b), H. reflexivity. Qed.

Lemma cmp_lt_gt a b : cmp a b = Lt -> cmp b a = Gt.
Proof. intro H. rewrite (cmp_antisym a b), H. reflexivity. Qed.

Lemma cmp_eq_sym a b : cmp a b = Eq -> cmp b a = Eq.
Proof. intro H. rewrite (cmp_antisym a b), H. reflexivity. Qed.

Lemma apart_sym (a b : entry) : apart a b -> apart b a.
Proof. unfold apart. intros H E. apply H. now apply cmp_eq_sym. Qed.

(** *** [tally] *)

Lemma tally_keys k acc e :
  In e (tally cmp k acc) -> fst e = k \/ In (fst e) (map fst acc).
Proof.
  induction acc as [|[k' c] rest IH]; simpl.
  - intros [<-|[]]. now left.
  - destruct (cmp k k'); simpl.
    + intros [<-|H]; right; [now left | right; now apply in_map].
    + intros [<-|[<-|H]]; [now left | right; now left |].
      right; right; now apply in_map.
    + intros [<-|H]; [right; now left|].
      destruct (IH H) as [E|E]; [now left | right; now right].
Qed.

Lemma tally_ascending k acc :
  ascending cmp acc -> ascending cmp (tally cmp k acc).
Proof.
  unfold ascending.
  induction acc as [|[k' c] rest IH]; simpl; intro Hs.
  - repeat constructor.
  - apply StronglySorted_inv in Hs. destruct Hs as [Hrest Hall].
    destruct (cmp k k') eqn:E.
    + constructor; [exact Hrest|].
      eapply Forall_impl; [|exact Hall]. intros a Ha; exact Ha.
    + constructor; [constructor; assumption|].
      constructor; [exact E|].
      eapply Forall_impl; [|exact Hall]. simpl.
      intros a Ha. now apply (cmp_trans k k' (fst a)).
    + constructor; [now apply IH|].
      rewrite Forall_forall. intros e He. simpl.
      destruct (tally_keys _ _ _ He) as [Hk|Hk].
      * rewrite Hk. now apply cmp_gt_lt.
      * rewrite Forall_forall in Hall. apply in_map_iff in Hk.
        destruct Hk as [e' [Hfst He']]. specialize (Hall e' He').
        simpl in Hall. now rewrite <- Hfst.
Qed.

Lemma tally_weight k0 k acc :
  weight cmp k0 (tally cmp k acc) =
  weight cmp k0 acc + match cmp k k0 with Eq => 1 | _ => 0 end.
Proof.
  induction acc as [|[k' c] rest IH]; cbn [tally weight].
  - destruct (cmp k k0); lia.
  - destruct (cmp k k') eqn:E; cbn [tally weight].
    + rewrite (cmp_eq_compat k k' k0 E). destruct (cmp k' k0); lia.
    + destruct (cmp k k0), (cmp k' k0); lia.
    + rewrite IH. destruct (cmp k k0), (cmp k' k0); lia.
Qed.

Lemma tally_has k acc :
  exists c, In (k, c) (tally cmp k acc) \/
            exists k', cmp k k' = Eq /\ In (k', c) (tally cmp k acc).
Proof.
  induction acc as [|[k' c] rest IH]; simpl.
  - exists 1. left. now left.
  - destruct (cmp k k') eqn:E.
    + exists (c + 1). right. exists k'. split; [exact E | now left].
    + exists 1. left. now left.
    + destruct IH as [c0 [H|[k'' [H1 H2]]]]; exists c0.
      * left. now right.
      * right. exists k''. split; [exact H1 | now right].
Qed.

Lemma tally_keeps k acc e :
  In e acc -> exists c, In (fst e, c) (tally cmp k acc).
Proof.
  induction acc as [|[k' c] rest IH]; simpl; [intros []|].
  intros [<-|H]; simpl.
  - destruct (cmp k k').
    + exists (c + 1). now left.
    + exists c. right. now left.
    + exists c. now left.
  - destruct (IH H) as [c0 Hc0].
    destruct (cmp k k').
    + destruct e as [k1 c1]. exists c1. right. exact H.
    + destruct e as [k1 c1]. exists c1. right. right. exact H.
    + exists c0. now right.
Qed.

(** *** [group_size] *)

Lemma group_size_ascending rows : ascending cmp (group_size cmp rows).
Proof.
  induction rows as [|r rows IH]; simpl.
  - constructor.
  - now apply tally_ascending.
Qed.

Lemma group_size_weight k rows :
  weight cmp k (group_size cmp rows) = occurrences cmp k rows.
Proof.
  induction rows as [|r rows IH]; cbn [group_size fold_right occurrences];
    [reflexivity|].
  fold (group_size cmp rows). rewrite tally_weight, IH.
  destruct (cmp r k); lia.
Qed.

Lemma group_size_keys rows e :
  In e (group_size cmp rows) -> In (fst e) rows.
Proof.
  revert e. induction rows as [|r rows IH]; simpl; intros e He; [exact He|].
  destruct (tally_keys _ _ _ He) as [H|H].
  - now left.
  - right. apply in_map_iff in H. destruct H as [e' [Hf He']].
    rewrite <- Hf. now apply IH.
Qed.

Lemma group_size_complete rows r :
  In r rows ->
  exists k c, In (k, c) (group_size cmp rows) /\ cmp k r = Eq.
Proof.
  induction rows as [|r0 rows IH]; simpl; [intros []|].
  intros [<-|H].
  - destruct (tally_has r0 (group_size cmp rows)) as [c [Hc|[k' [H1 H2]]]].
    + exists r0, c. split; [exact Hc | apply cmp_refl].
    + exists k', c. split; [exact H2 | now apply cmp_eq_sym].
  - destruct (IH H) as [k [c [Hin Hk]]].
    destruct (tally_keeps r0 _ _ Hin) as [c' Hc'].
    exists k, c'. split; [exact Hc' | exact Hk].
Qed.

Lemma weight_apart k l :
  Forall (fun e : entry => cmp (fst e) k <> Eq) l -> weight cmp k l = 0.
Proof.
  induction l as [|[k' c] rest IH]; simpl; [reflexivity|].
  intro H. inversion H as [|? ? Hh Ht]; subst. simpl in Hh.
  destruct (cmp k' k); [congruence| |]; now apply IH.
Qed.

Lemma ascending_weight l k c :
  ascending cmp l -> In (k, c) l -> weight cmp k l = c.
Proof.
  unfold ascending.
  induction l as [|[k' c'] rest IH]; simpl; [intros _ []|].
  intros Hs Hin. apply StronglySorted_inv in Hs. destruct Hs as [Hrest Hall].
  destruct Hin as [E|Hin].
  - inversion E; subst. rewrite cmp_refl.
    rewrite weight_apart; [lia|].
    eapply Forall_impl; [|exact Hall]. simpl. intros a Ha Ea.
    apply cmp_eq_sym in Ea. congruence.
  - rewrite Forall_forall in Hall. specialize (Hall _ Hin). simpl in Hall.
    rewrite Hall. now apply IH.
Qed.

(** *** [insert_by] and [sort_by] *)

Lemma insert_by_In {A} (le : A -> A -> bool) x l y :
  In y (insert_by le x l) <-> y = x \/ In y l.
Proof.
  induction l as [|z t IH]; simpl.
  - split; intros [H|H]; auto.
  - destruct (le x z); simpl; [|rewrite IH]; intuition auto.
Qed.

Lemma sort_by_In {A} (le : A -> A -> bool) l y :
  In y (sort_by le l) <-> In y l.
Proof.
  induction l as [|x t IH]; simpl; [reflexivity|].
  rewrite insert_by_In, IH. intuition auto.
Qed.

Lemma sort_by_Forall {A} (le : A -> A -> bool) (P : A -> Prop) l :
  Forall P l -> Forall P (sort_by le l).
Proof.
  rewrite !Forall_forall. intros H y Hy. apply H. now apply sort_by_In in Hy.
Qed.

Lemma ascending_distinct l : ascending cmp l -> keys_distinct cmp l.
Proof.
  unfold ascending.
  induction l as [|x t IH]; simpl; [trivial|].
  intro Hs. apply StronglySorted_inv in Hs. destruct Hs as [Ht Hall].
  split; [|now apply IH].
  eapply Forall_impl; [|exact Hall]. simpl. intros a Ha. congruence.
Qed.

Lemma insert_by_distinct (le : entry -> entry -> bool) x l :
  keys_distinct cmp l -> Forall (apart x) l ->
  keys_distinct cmp (insert_by le x l).
Proof.
  induction l as [|y t IH]; simpl.
  - intros _ _. split; [constructor | trivial].
  - intros [Hy Ht] Hx. inversion Hx as [|? ? Hxy Hxt]; subst.
    destruct (le x y); simpl.
    + repeat split; assumption.
    + split; [|now apply IH].
      rewrite Forall_forall. intros e He. apply insert_by_In in He.
      destruct He as [->|He].
      * now apply apart_sym.
      * rewrite Forall_forall in Hy. now apply Hy.
Qed.

Lemma sort_by_distinct (le : entry -> entry -> bool) l :
  keys_distinct cmp l -> keys_distinct cmp (sort_by le l).
Proof.
  induction l as [|x t IH]; simpl; [trivial|].
  intros [Hx Ht]. apply insert_by_distinct; [now apply IH|].
  now apply sort_by_Forall.
Qed.

Lemma insert_by_ascending x l :
  ascending cmp l -> Forall (apart x) l ->
  ascending cmp (insert_by kle x l).
Proof.
  unfold ascending.
  induction l as [|y t IH]; simpl.
  - intros _ _. repeat constructor.
  - intros Hs Hx. apply StronglySorted_inv in Hs. destruct Hs as [Ht Hy].
    inversion Hx as [|? ? Hxy Hxt]; subst. unfold apart in Hxy.
    unfold kle at 1, cmp_leb. destruct (cmp (fst x) (fst y)) eqn:E.
    + congruence.
    + constructor; [constructor; assumption|].
      constructor; [exact E|].
      eapply Forall_impl; [|exact Hy]. simpl. intros a Ha.
      now apply (cmp_trans (fst x) (fst y) (fst a)).
    + constructor; [now apply IH|].
      rewrite Forall_forall. intros e He. apply insert_by_In in He.
      destruct He as [->|He].
      * now apply cmp_gt_lt.
      * rewrite Forall_forall in Hy. now apply Hy.
Qed.

Lemma sort_by_ascending l :
  keys_distinct cmp l -> ascending cmp (sort_by kle l).
Proof.
  induction l as [|x t IH]; simpl.
  - intros _. constructor.
  - intros [Hx Ht]. apply insert_by_ascending; [now apply IH|].
    now apply sort_by_Forall.
Qed.

Lemma occurrences_pos k rows : In k rows -> 1 <= occurrences cmp k rows.
Proof.
  assert (Hnn : forall l, 0 <= occurrences cmp k l).
  { induction l as [|r l IH]; cbn [occurrences]; [lia|].
    destruct (cmp r k); lia. }
  induction rows as [|r rows IH]; cbn [occurrences]; [intros []|].
  intros [->|H].
  - rewrite cmp_refl. specialize (Hnn rows). lia.
  - specialize (IH H). destruct (cmp r k); lia.
Qed.

(** Grouping, reordering by any criterion and sorting by key: the table
    is in strictly ascending key order, every entry carries a key of some
    row together with the number of rows equal to it, and every row is
    counted under some key. *)
Lemma grouped_sorted_counts (le : entry -> entry -> bool) rows :
  let table := sort_by kle (sort_by le (group_size cmp rows)) in
  ascending cmp table /\
  (forall k c, In (k, c) table -> In k rows /\ c = occurrences cmp k rows) /\
  (forall r, In r rows -> exists k c, In (k, c) table /\ cmp k r = Eq).
Proof.
  intro table. subst table.
  pose proof (group_size_ascending rows) as Hasc.
  split; [|split].
  - apply sort_by_ascending, sort_by_distinct, ascending_distinct, Hasc.
  - intros k c Hin. apply sort_by_In in Hin. apply sort_by_In in Hin.
    split.
    + apply (group_size_keys rows (k, c) Hin).
    + rewrite <- group_size_weight. symmetry. now apply ascending_weight.
  - intros r Hr. destruct (group_size_complete rows r Hr) as [k [c [Hin Hk]]].
    exists k, c. split; [|exact Hk].
    apply sort_by_In. apply sort_by_In. exact Hin.
Qed.

End Grouping.

(** ** The order on keys *)

Lemma num_cmp_refl a : num_cmp a a = Eq.
Proof.
  unfold num_cmp. destruct (num_val a); [|reflexivity].
  apply Qeq_alt. reflexivity.
Qed.

Lemma num_cmp_antisym a b : num_cmp b a = CompOpp (num_cmp a b).
Proof.
  unfold num_cmp. destruct (num_val a), (num_val b); try reflexivity.
  symmetry. apply Qcompare_antisym.
Qed.

Lemma num_cmp_trans a b c :
  num_cmp a b = Lt -> num_cmp b c = Lt -> num_cmp a c = Lt.
Proof.
  unfold num_cmp.
  destruct (num_val a), (num_val b), (num_val c); try congruence.
  rewrite <- !Qlt_alt. apply Qlt_trans.
Qed.

Lemma num_cmp_eq_compat a b c :
  num_cmp a b = Eq -> num_cmp a c = num_cmp b c.
Proof.
  unfold num_cmp.
  destruct (num_val a), (num_val b), (num_val c); try congruence.
  rewrite <- Qeq_alt. intro H. now rewrite H.
Qed.

Lemma key_cmp_refl k : key_cmp k k = Eq.
Proof.
  induction k as [|a k IH]; simpl; [reflexivity|].
  now rewrite num_cmp_refl.
Qed.

Lemma key_cmp_antisym k1 k2 : key_cmp k2 k1 = CompOpp (key_cmp k1 k2).
Proof.
  revert k2. induction k1 as [|a k1 IH]; intros [|b k2]; simpl; try reflexivity.
  rewrite (num_cmp_antisym a b). destruct (num_cmp a b); simpl; auto.
Qed.

Lemma key_cmp_eq_compat k1 k2 k3 :
  key_cmp k1 k2 = Eq -> key_cmp k1 k3 = key_cmp k2 k3.
Proof.
  revert k2 k3.
  induction k1 as [|a k1 IH]; intros [|b k2] [|c k3]; simpl;
    try discriminate; try reflexivity.
  destruct (num_cmp a b) eqn:E; try discriminate.
  intro H. rewrite (num_cmp_eq_compat a b c E).
  destruct (num_cmp b c); auto.
Qed.

Lemma key_cmp_trans k1 k2 k3 :
  key_cmp k1 k2 = Lt -> key_cmp k2 k3 = Lt -> key_cmp k1 k3 = Lt.
Proof.
  revert k2 k3.
  induction k1 as [|a k1 IH]; intros [|b k2] [|c k3]; simpl;
    try discriminate; try reflexivity.
  destruct (num_cmp a b) eqn:Eab; try discriminate;
    destruct (num_cmp b c) eqn:Ebc; try discriminate; intros H1 H2.
  - rewrite (num_cmp_eq_compat a b c Eab), Ebc. eauto.
  - now rewrite (num_cmp_eq_compat a b c Eab), Ebc.
  - assert (E : num_cmp a c = Lt).
    { assert (Ecb : num_cmp c b = Eq)
        by (rewrite (num_cmp_antisym b c), Ebc; reflexivity).
      rewrite (num_cmp_antisym c a), (num_cmp_eq_compat c b a Ecb).
      rewrite (num_cmp_antisym a b), Eab. reflexivity. }
    now rewrite E.
  - now rewrite (num_cmp_trans a b c Eab Ebc).
Qed.

(** ** Row-wise summary *)

Lemma nth_map_seq {A} (g : nat -> A) (n i : nat) (d : A) :
  (i < n)%nat -> nth i (map g (seq 0 n)) d = g i.
Proof.
  intro H.
  rewrite (nth_indep _ d (g O)) by now rewrite length_map, length_seq.
  rewrite map_nth, seq_nth by exact H. reflexivity.
Qed.

Lemma mask_row (df : DataFrame value) (i : nat) :
  row_at false (data (isnull df)) i = map isnull_value (row_cells df i).
Proof. unfold row_cells. simpl. apply (row_at_map isnull_value (VInt 0)). Qed.

(** The rows of the frame that [summarize_row_nulls] hands to
    [value_counts] are the pairs of the rows of the dataset. *)
Lemma row_frame_rows (df : DataFrame value) :
  wf df ->
  rows_of (NInt 0)
    (mkFrame (index df) [LStr "columns_missing"; LStr "percent_missing"]
       [ s_values (sum_axis1 (isnull df)); s_values (mean_axis1 (isnull df)) ])
  = row_pairs df.
Proof.
  intros [Hlen _]. unfold rows_of, row_pairs, nrows. simpl index.
  apply map_ext_in. intros i Hi. apply in_seq in Hi.
  unfold row_at. simpl. unfold rows_of, nrows. simpl index.
  rewrite !map_map, !nth_map_seq by lia.
  rewrite mask_row, bool_sum_isnull, bool_mean_isnull.
  unfold row_pair, row_cells. rewrite row_at_length, Hlen. reflexivity.
Qed.

Lemma summarize_row_nulls_eq (df : DataFrame value) :
  wf df ->
  summarize_row_nulls df =
  Some (mkCounts [LStr "columns_missing"; LStr "percent_missing"]
    (sort_by (fun a b => cmp_leb key_cmp (fst a) (fst b))
       (sort_by (fun a b => Z.leb (snd b) (snd a))
          (group_size key_cmp
             (filter (fun r => negb (existsb num_isnan r)) (row_pairs df)))))).
Proof.
  intro Hwf. unfold summarize_row_nulls, concat_axis1. simpl forallb.
  rewrite labels_eqb_refl. simpl. unfold sort_index, value_counts. simpl.
  rewrite <- (row_frame_rows df Hwf). reflexivity.
Qed.

(** With at least one column no row has a NaN fraction, and none is
    dropped. *)
Lemma row_pairs_kept (df : DataFrame value) :
  columns df <> [] ->
  filter (fun r => negb (existsb num_isnan r)) (row_pairs df) = row_pairs df.
Proof.
  intro Hc. unfold row_pairs.
  assert (H : forall i, negb (existsb num_isnan (row_pair df i)) = true).
  { intro i. unfold row_pair, ncols.
    destruct (columns df); [congruence | reflexivity]. }
  induction (seq 0 (nrows df)) as [|i l IH]; cbn [map filter]; [reflexivity|].
  now rewrite H, IH.
Qed.

(** Without columns every fraction is NaN, and all rows are dropped. *)
Lemma row_pairs_dropped (df : DataFrame value) :
  columns df = [] ->
  filter (fun r => negb (existsb num_isnan r)) (row_pairs df) = [].
Proof.
  intro Hc. unfold row_pairs.
  assert (H : forall i, negb (existsb num_isnan (row_pair df i)) = false).
  { intro i. unfold row_pair, ncols. rewrite Hc. reflexivity. }
  induction (seq 0 (nrows df)) as [|i l IH]; cbn [map filter]; [reflexivity|].
  now rewrite H.
Qed.

(** Two rows with equal pairs have the same pair. *)
Lemma row_pair_eq (df : DataFrame value) (i j : nat) :
  key_cmp (row_pair df i) (row_pair df j) = Eq -> row_pair df i = row_pair df j.
Proof.
  unfold row_pair. simpl. unfold num_cmp at 1. simpl.
  destruct (inject_Z (count_missing (row_cells df i))
            ?= inject_Z (count_missing (row_cells df j)))%Q eqn:E;
    try discriminate.
  intros _. apply Qeq_alt in E. unfold Qeq in E. simpl in E.
  assert (Heq : count_missing (row_cells df i) = count_missing (row_cells df j))
    by lia.
  now rewrite Heq.
Qed.

Lemma no_columns_wf : wf no_columns.
Proof. split; [reflexivity | constructor]. Qed.

Lemma four_rows_wf : wf four_rows.
Proof. split; [reflexivity | repeat constructor]. Qed.

(** A dataset without columns: every row has the pair (0, NaN), all rows are
    dropped and the summary is empty. *)
Lemma summarize_row_nulls_no_columns (df : DataFrame value) :
  wf df -> columns df = [] ->
  summarize_row_nulls df =
  Some (mkCounts [LStr "columns_missing"; LStr "percent_missing"] []).
Proof.
  intros Hwf Hc. rewrite (summarize_row_nulls_eq df Hwf).
  now rewrite (row_pairs_dropped df Hc).
Qed.

(** C2, as stated, fails on a dataset with one row and no columns: the row
    has the pair (0, NaN) and the summary has no entry for it. *)
Lemma summarize_row_nulls_drops_nan_rows :
  wf no_columns /\
  ~ (exists s, summarize_row_nulls no_columns = Some s /\ row_groups no_columns s).
Proof.
  split; [exact no_columns_wf|].
  intros [s [Hs (_ & _ & _ & Hall)]].
  rewrite (summarize_row_nulls_no_columns no_columns no_columns_wf eq_refl) in Hs.
  inversion Hs; subst s.
  destruct (Hall O) as [c Hc]; [unfold nrows; simpl; lia|].
  exact Hc.
Qed.

(** C2, amended.  For every well-shaped dataset with at least one column
    [summarize_row_nulls] returns one entry per distinct pair (number of
    missing cells of a row, that number over the number of columns): the
    entries are in strictly ascending order of count and then fraction, every
    entry holds the pair of some row and the number of rows with that pair,
    and the pair of every row has an entry.  On the sample of four rows, two
    with one missing cell and two with none, the result is two groups of size
    2, the group without missing cells first. *)
Theorem summarize_row_nulls_spec (df : DataFrame value)
  (Hwf : wf df) (Hcols : columns df <> []) :
  (exists s, summarize_row_nulls df = Some s /\ row_groups df s) /\
  summarize_row_nulls four_rows =
    Some (mkCounts [LStr "columns_missing"; LStr "percent_missing"]
            [ ([NInt 0; NFloat (Fin (0 # 2))], 2);
              ([NInt 1; NFloat (Fin (1 # 2))], 2) ]).
Proof.
  split; [|reflexivity].
  eexists. split; [apply (summarize_row_nulls_eq df Hwf)|].
  rewrite (row_pairs_kept df Hcols).
  destruct (grouped_sorted_counts (list num) key_cmp key_cmp_refl key_cmp_antisym
              key_cmp_trans key_cmp_eq_compat
              (fun a b => Z.leb (snd b) (snd a)) (row_pairs df))
    as (Hasc & Hin & Hall).
  unfold row_groups. simpl level_names. simpl entries.
  split; [reflexivity|]. split; [exact Hasc|]. split.
  - intros k c Hkc. destruct (Hin k c Hkc) as [Hk Hc].
    repeat split; [exact Hk | | exact Hc].
    rewrite Hc. now apply occurrences_pos; [apply key_cmp_refl|].
  - intros i Hi.
    assert (Hrow : In (row_pair df i) (row_pairs df)).
    { unfold row_pairs. apply in_map. apply in_seq. lia. }
    destruct (Hall _ Hrow) as [k [c [Hkc Heq]]].
    exists c. destruct (Hin k c Hkc) as [Hk _].
    unfold row_pairs in Hk. apply in_map_iff in Hk.
    destruct Hk as [j [Hj _]]. subst k.
    now rewrite <- (row_pair_eq df j i Heq).
Qed.

Lemma summarize_row_nulls_spec_witness :
  wf four_rows /\ columns four_rows <> [] /\
  exists s, summarize_row_nulls four_rows = Some s /\ row_groups four_rows s.
Proof.
  split; [exact four_rows_wf|].
  split; [discriminate|].
  exact (proj1 (summarize_row_nulls_spec four_rows four_rows_wf
                  ltac:(discriminate))).
Defined.

(** ** Counts of zero *)

Lemma ratio_zero (n : nat) : n <> O -> float_eq (ratio 0 n) (Fin 0).
Proof.
  destruct n as [|m]; [congruence|]. intros _. simpl. reflexivity.
Qed.

Lemma no_missing_column (l : list value) :
  Forall (fun v => isnull_value v = false) l -> count_missing l = 0.
Proof.
  unfold count_missing. induction 1 as [|v l Hv _ IH]; simpl; [reflexivity|].
  rewrite Hv. exact IH.
Qed.

Lemma no_missing_row (df : DataFrame value) (i : nat) :
  no_missing df -> count_missing (row_cells df i) = 0.
Proof.
  intro H. apply no_missing_column. unfold row_cells, row_at.
  rewrite Forall_forall. intros v Hv. apply in_map_iff in Hv.
  destruct Hv as [c [<- Hc]]. unfold no_missing in H.
  rewrite Forall_forall in H. specialize (H c Hc).
  destruct (nth_in_or_default i c (VInt 0)) as [Hin|Hd]; [|rewrite Hd; reflexivity].
  rewrite Forall_forall in H. now apply H.
Qed.

(** Every entry of the row-wise summary holds the pair of a row whose
    fraction is a number. *)
Lemma row_entries_from_rows (df : DataFrame value) (s : CountSeries) :
  wf df -> summarize_row_nulls df = Some s ->
  forall k c, In (k, c) (entries s) ->
    exists i, k = row_pair df i /\ ncols df <> O.
Proof.
  intros Hwf Hs k c Hin.
  rewrite (summarize_row_nulls_eq df Hwf) in Hs. inversion Hs; subst s; clear Hs.
  simpl in Hin. apply sort_by_In in Hin. apply sort_by_In in Hin.
  apply group_size_keys in Hin. simpl in Hin.
  apply filter_In in Hin. destruct Hin as [Hrow Hnan].
  unfold row_pairs in Hrow. apply in_map_iff in Hrow.
  destruct Hrow as [i [<- _]]. exists i. split; [reflexivity|].
  intro Hz. unfold row_pair in Hnan. rewrite Hz in Hnan. discriminate.
Qed.

Lemma no_rows_wf : wf no_rows.
Proof. split; [reflexivity | repeat constructor]. Qed.

(** C7, as stated, fails on a dataset with one column and no rows: the
    column misses 0 values and its [percent_missing] is NaN, not 0.0. *)
Lemma nan_for_dataset_without_rows :
  wf no_rows /\ ~ nan_safe no_rows.
Proof.
  split; [exact no_rows_wf|].
  intros (r & s & Hr & _ & (rm & pm & Hrm & Hpm & _ & Hz) & _).
  rewrite summarize_column_nulls_eq in Hr. inversion Hr; subst r; clear Hr.
  inversion Hrm; subst rm. inversion Hpm; subst pm.
  destruct (Hz O (NInt 0) (NFloat NaN) eq_refl eq_refl eq_refl) as [f [Hf Hnan]].
  inversion Hf; subst f. exact Hnan.
Qed.

(** C7, amended.  For every well-shaped dataset with at least one row: a
    column whose missing count is 0 has [percent_missing] equal to 0.0, a
    row group whose missing count is 0 has [percent_missing] equal to 0.0,
    and when no cell of the dataset is missing every column and every row
    group has [percent_missing] equal to 0.0. *)
Theorem zero_count_gives_zero_percent (df : DataFrame value)
  (Hwf : wf df) (Hrows : index df <> []) :
  nan_safe df.
Proof.
  assert (Hn : nrows df <> O).
  { unfold nrows. destruct (index df); [congruence | discriminate]. }
  assert (Hgroups : forall s, summarize_row_nulls df = Some s ->
            forall x y c, In ([x; y], c) (entries s) ->
              (x = NInt 0 \/ no_missing df) -> is_zero_float y).
  { intros s Hs x y c Hin Hx.
    destruct (row_entries_from_rows df s Hwf Hs _ _ Hin) as [i [Hk Hc]].
    unfold row_pair in Hk. inversion Hk as [[Hx' Hy']]; clear Hk.
    assert (Hz : count_missing (row_cells df i) = 0).
    { destruct Hx as [Hx|Hx]; [congruence | now apply no_missing_row]. }
    rewrite Hz. eexists. split; [reflexivity | now apply ratio_zero]. }
  destruct Hwf as [Hlen Hcols].
  eexists. eexists.
  split; [apply summarize_column_nulls_eq|].
  split; [apply summarize_row_nulls_eq; now split|].
  assert (Hpm : forall j y,
            nth_error (map (fun c => NFloat (ratio (count_missing c) (length c)))
                         (data df)) j = Some y ->
            exists c, nth_error (data df) j = Some c /\
                      y = NFloat (ratio (count_missing c) (nrows df))).
  { intros j y Hy. rewrite nth_error_map in Hy.
    destruct (nth_error (data df) j) as [c|] eqn:Ec; [|discriminate].
    exists c. split; [reflexivity|]. inversion Hy.
    rewrite Forall_forall in Hcols.
    now rewrite (Hcols c (nth_error_In _ _ Ec)). }
  split; [|split].
  - eexists. eexists. split; [reflexivity|]. split; [reflexivity|].
    split; [now rewrite !length_map|].
    intros j x y Hx Hy Hzero.
    destruct (Hpm j y Hy) as [c [Ec ->]].
    rewrite nth_error_map, Ec in Hx. inversion Hx as [Hc].
    rewrite <- Hc in Hzero. inversion Hzero as [Hc0]. rewrite Hc0.
    eexists. split; [reflexivity | now apply ratio_zero].
  - intros x y c Hin Hx.
    eapply Hgroups; [apply summarize_row_nulls_eq; now split | exact Hin | now left].
  - intro Hnone. split.
    + eexists. split; [reflexivity|].
      rewrite Forall_forall. intros y Hy. apply In_nth_error in Hy.
      destruct Hy as [j Hj]. destruct (Hpm j y Hj) as [c [Ec ->]].
      unfold no_missing in Hnone. rewrite Forall_forall in Hnone.
      rewrite (no_missing_column c (Hnone c (nth_error_In _ _ Ec))).
      eexists. split; [reflexivity | now apply ratio_zero].
    + intros x y c Hin.
      eapply Hgroups; [apply summarize_row_nulls_eq; now split | exact Hin | now right].
Qed.

Lemma zero_count_gives_zero_percent_witness :
  wf four_rows /\ index four_rows <> [] /\ nan_safe four_rows.
Proof.
  split; [exact four_rows_wf|].
  split; [discriminate|].
  exact (zero_count_gives_zero_percent four_rows four_rows_wf ltac:(discriminate)).
Defined.

(** ** The subplot grid *)

Lemma create_sub_plots_eq (n : Z) (st : pyplot) :
  0 <= n ->
  _create_sub_plots n st =
  (inl (length (figs st), squeeze (length (figs st)) (Z.to_nat (n / 3 + 1)) 3),
   mkPyplot (figs st ++ [fresh_figure n])).
Proof.
  intro Hn. unfold _create_sub_plots, bind, plt_subplots, ret.
  assert (Hrows : 0 < n / 3 + 1) by (pose proof (Z.div_pos n 3 Hn); lia).
  destruct (n / 3 + 1 <=? 0) eqn:E; [apply Z.leb_le in E; lia|].
  simpl orb. cbv iota. unfold fresh_figure. reflexivity.
Qed.

Lemma grid_row_length (fig ncols r : nat) : len (grid_row fig ncols r) = Z.of_nat ncols.
Proof. unfold len, grid_row. now rewrite length_map, length_seq. Qed.

(** From three features on the axes come as a two-dimensional array of
    [n / 3 + 1] rows of 3. *)
Lemma create_sub_plots_grid (n : Z) (st : pyplot) :
  3 <= n ->
  exists fig ax st',
    _create_sub_plots n st = (inl (fig, ax), st') /\
    grid_2d ax (n / 3 + 1) 3.
Proof.
  intro Hn. rewrite create_sub_plots_eq by lia.
  do 3 eexists. split; [reflexivity|].
  assert (Hq : 1 <= n / 3) by (apply (Z.div_le_lower_bound n 3 1); lia).
  unfold squeeze.
  destruct (Z.to_nat (n / 3 + 1)) as [|[|m]] eqn:E; try lia.
  eexists. split; [reflexivity|]. split.
  - unfold len. rewrite length_map, length_seq. lia.
  - rewrite Forall_forall. intros r Hr. apply in_map_iff in Hr.
    destruct Hr as [i [<- _]]. apply grid_row_length.
Qed.

(** C3.  The canvas is 14 wide and (n // 3 + 1) * 3 high, but for a count of
    0, 1 or 2 the axes do not come as a two-dimensional array of one row and
    three columns: [plt.subplots] squeezes the single row, and
    [_create_sub_plots] returns a one-dimensional array of three Axes. *)
Theorem create_sub_plots_single_row_is_flat (st : pyplot) :
  let fig := length (figs st) in
  let flat := Ax1D [(fig, 0%nat); (fig, 1%nat); (fig, 2%nat)] in
  let canvas := mkPyplot (figs st ++ [fresh_figure 0]) in
  _create_sub_plots 0 st = (inl (fig, flat), canvas) /\
  _create_sub_plots 1 st = (inl (fig, flat), canvas) /\
  _create_sub_plots 2 st = (inl (fig, flat), canvas) /\
  figsize (fresh_figure 0) = (inject_Z 14, inject_Z 3) /\
  ~ grid_2d flat 1 3.
Proof.
  repeat split.
  intros [rows [H _]]. discriminate H.
Qed.

(** C4, as stated, fails for three features: the grid has two rows, and
    ceil(3 / 3) is one. *)
Lemma three_features_two_rows : ~ rows_are_ceiling 3.
Proof.
  intro H. destruct (H no_figures) as (fig & ax & st' & g & Hrun & Hg & Hshape).
  rewrite create_sub_plots_eq in Hrun by lia.
  inversion Hrun; subst fig ax st'; clear Hrun.
  simpl in Hg. inversion Hg; subst g. discriminate Hshape.
Qed.

(** C4, amended.  For every non-negative feature count n the grid has 3
    columns and n // 3 + 1 rows; that is ceil(n / 3) when n is not a multiple
    of 3 and one row more when it is. *)
Theorem grid_shape_spec (n : Z) (Hn : 0 <= n) (st : pyplot) :
  exists fig ax st' g,
    _create_sub_plots n st = (inl (fig, ax), st') /\
    nth_error (figs st') fig = Some g /\
    grid_shape g = (n / 3 + 1, 3) /\
    n / 3 + 1 = ceil_div n 3 + (if n mod 3 =? 0 then 1 else 0).
Proof.
  rewrite create_sub_plots_eq by exact Hn.
  do 4 eexists. split; [reflexivity|]. split.
  - simpl. rewrite nth_error_app2 by lia. rewrite Nat.sub_diag. reflexivity.
  - split; [reflexivity|].
    unfold ceil_div. destruct (n mod 3 =? 0) eqn:E.
    + apply Z.eqb_eq in E. Z.to_euclidean_division_equations. lia.
    + apply Z.eqb_neq in E. Z.to_euclidean_division_equations. lia.
Qed.

Lemma grid_shape_spec_witness :
  0 <= 4 /\
  exists fig ax st' g,
    _create_sub_plots 4 no_figures = (inl (fig, ax), st') /\
    nth_error (figs st') fig = Some g /\
    grid_shape g = (2, 3).
Proof.
  split; [lia|].
  destruct (grid_shape_spec 4 ltac:(lia) no_figures)
    as (fig & ax & st' & g & H1 & H2 & H3 & _).
  exists fig, ax, st', g. repeat split; assumption.
Defined.

(** ** The renderers *)

(** C10.  With one or two column names the grid has a single row, the axes
    come as a one-dimensional array, and both renderers raise before anything
    is drawn: the state they leave holds the new figure with blank axes.
    [get_box] raises TypeError at [ax[0][0]]; so does [get_hist], unless the
    first name is not a column of the dataset, in which case [df[column]],
    which is evaluated first, has raised already. *)
Theorem short_column_lists_raise (df : DataFrame value) (columns : list string)
  (st : pyplot)
  (Hlen : length columns = 1%nat \/ length columns = 2%nat) :
  let canvas := mkPyplot (figs st ++ [fresh_figure 1]) in
  (exists fig items,
     _create_sub_plots (len columns) st = (inl (fig, Ax1D items), canvas)) /\
  (exists e,
     get_hist df columns st = (inr e, canvas) /\
     (forall c, hd_error columns = Some c -> select df c <> None ->
                e = TypeError)) /\
  get_box df columns st = (inr TypeError, canvas) /\
  Forall (fun a => artists a = []) (axes (fresh_figure 1)).
Proof.
  assert (Hblank : Forall (fun a => artists a = []) (axes (fresh_figure 1)))
    by (repeat constructor).
  destruct columns as [|c [|c2 [|c3 rest]]]; simpl in Hlen;
    try (exfalso; destruct Hlen; discriminate); clear Hlen.
  - repeat split; try exact Hblank.
    + do 2 eexists. reflexivity.
    + unfold get_hist, bind, getitem. simpl.
      destruct (select df c) eqn:E.
      * exists TypeError. split; [reflexivity | reflexivity].
      * exists KeyError. split; [reflexivity|].
        intros c' Hc' Hsel. inversion Hc'; subst c'. congruence.
  - repeat split; try exact Hblank.
    + do 2 eexists. reflexivity.
    + unfold get_hist, bind, getitem. simpl.
      destruct (select df c) eqn:E.
      * exists TypeError. split; [reflexivity | reflexivity].
      * exists KeyError. split; [reflexivity|].
        intros c' Hc' Hsel. inversion Hc'; subst c'. congruence.
Qed.

Lemma short_column_lists_raise_witness :
  (length ["A"] = 1%nat \/ length ["A"] = 2%nat) /\
  get_box abc_frame ["A"] no_figures =
    (inr TypeError, mkPyplot [fresh_figure 1]).
Proof.
  split; [left; reflexivity|].
  exact (proj1 (proj2 (proj2
    (short_column_lists_raise abc_frame ["A"] no_figures
       (or_introl eq_refl))))).
Defined.

(** C5.  On a list with a single column name, present in the dataset,
    neither renderer draws the column in cell (0, 0): both raise TypeError at
    [ax[0][0]], and the first Axes of the figure stays blank. *)
Theorem single_column_is_not_drawn :
  get_hist abc_frame ["A"] no_figures =
    (inr TypeError, mkPyplot [fresh_figure 1]) /\
  get_box abc_frame ["A"] no_figures =
    (inr TypeError, mkPyplot [fresh_figure 1]) /\
  nth_error (axes (fresh_figure 1)) 0 = Some blank_axes.
Proof. repeat split. Qed.

(** C6.  On the three columns A, B, C the grid has two rows.  Cell (0, 0),
    where A is drawn, gets its tick labels rotated by 30 but keeps an empty
    title and untouched offset and grid settings; the title, the offset
    setting and the grid setting go through [pyplot] to the current axes,
    which is cell (1, 2), the last one created and one no column is drawn
    in. *)
Theorem title_lands_on_last_cell :
  let st := snd (get_hist abc_frame ["A"; "B"; "C"] no_figures) in
  let a := SelSeries [VInt 1; VNone; VInt 3; VFloat NaN; VInt 5] in
  cell_axes st 0 0 0 = Some (mkAxes [Hist a 5] (Some 30) "" None None) /\
  cell_axes st 0 1 2 = Some (mkAxes [] None "C" (Some false) (Some false)) /\
  let st' := snd (get_box abc_frame ["A"; "B"; "C"] no_figures) in
  cell_axes st' 0 0 0 = Some (mkAxes [Box a] (Some 30) "" None None) /\
  cell_axes st' 0 1 2 = Some (mkAxes [] None "C" (Some false) (Some false)).
Proof. repeat split. Qed.

(** ** Objects and references *)

Lemma lookup_last (h : store) (o : pyobj) :
  nth_error (h ++ [o]) (length h) = Some o.
Proof. rewrite nth_error_app2 by lia. now rewrite Nat.sub_diag. Qed.

Lemma lookup_old (h : store) (o' : pyobj) (a : nat) (o : pyobj) :
  nth_error h a = Some o -> nth_error (h ++ [o']) a = Some o.
Proof.
  intro H. rewrite nth_error_app1; [exact H|].
  apply nth_error_Some. congruence.
Qed.

Lemma run_bind {S A B} (m : M S A) (k : A -> M S B) (s s' : S) (x : A) r :
  m s = (inl x, s') -> k x s' = r -> bind m k s = r.
Proof. unfold bind. intros -> H. exact H. Qed.

Lemma run_deref (h : store) (a : nat) (o : pyobj) :
  nth_error h a = Some o -> deref a h = (inl o, h).
Proof. unfold deref. now intros ->. Qed.

Lemma run_isnull (h : store) (a : nat) (df : DataFrame value) :
  nth_error h a = Some (ObjFrame df) ->
  Store.isnull a h = (inl (length h), h ++ [ObjMask (isnull df)]).
Proof.
  intro H. unfold Store.isnull. eapply run_bind; [apply run_deref; eassumption|].
  reflexivity.
Qed.

Lemma run_sum (h : store) (a : nat) (m : DataFrame bool) (axis : Z) :
  nth_error h a = Some (ObjMask m) -> axis = 0 \/ axis = 1 ->
  Store.sum a axis h =
  (inl (length h),
   h ++ [ObjSeries (if axis =? 0 then sum_axis0 m else sum_axis1 m)]).
Proof.
  intros H Hax. unfold Store.sum. eapply run_bind; [apply run_deref; eassumption|].
  destruct Hax; subst axis; reflexivity.
Qed.

Lemma run_mean (h : store) (a : nat) (m : DataFrame bool) (axis : Z) :
  nth_error h a = Some (ObjMask m) -> axis = 0 \/ axis = 1 ->
  Store.mean a axis h =
  (inl (length h),
   h ++ [ObjSeries (if axis =? 0 then mean_axis0 m else mean_axis1 m)]).
Proof.
  intros H Hax. unfold Store.mean. eapply run_bind; [apply run_deref; eassumption|].
  destruct Hax; subst axis; reflexivity.
Qed.

Lemma run_rename (h : store) (a : nat) (s : Series num) (name : string) :
  nth_error h a = Some (ObjSeries s) ->
  Store.rename a name h = (inl (length h), h ++ [ObjSeries (rename s name)]).
Proof.
  intro H. unfold Store.rename. eapply run_bind; [apply run_deref; eassumption|].
  reflexivity.
Qed.

Lemma run_concat2 (h : store) (a b : nat) (s t : Series num) (f : DataFrame num) :
  nth_error h a = Some (ObjSeries s) ->
  nth_error h b = Some (ObjSeries t) ->
  concat_axis1 [s; t] = Some f ->
  Store.concat [a; b] h = (inl (length h), h ++ [ObjNumFrame f]).
Proof.
  intros Ha Hb Hf. unfold Store.concat, deref_series.
  eapply run_bind.
  - eapply run_bind; [apply run_deref; eassumption|]. cbv beta iota.
    eapply run_bind; [|reflexivity].
    eapply run_bind; [apply run_deref; eassumption|]. reflexivity.
  - cbv beta iota. rewrite Hf. reflexivity.
Qed.

Lemma run_value_counts (h : store) (a : nat) (f : DataFrame num) :
  nth_error h a = Some (ObjNumFrame f) ->
  Store.value_counts a h = (inl (length h), h ++ [ObjCounts (value_counts f)]).
Proof.
  intro H. unfold Store.value_counts. eapply run_bind; [apply run_deref; eassumption|].
  reflexivity.
Qed.

Lemma run_sort_index (h : store) (a : nat) (s : CountSeries) :
  nth_error h a = Some (ObjCounts s) ->
  Store.sort_index a h = (inl (length h), h ++ [ObjCounts (sort_index s)]).
Proof.
  intro H. unfold Store.sort_index. eapply run_bind; [apply run_deref; eassumption|].
  reflexivity.
Qed.

Ltac lookup :=
  first [ apply lookup_last
        | eassumption
        | apply lookup_old; lookup ].

(** The column-wise summarizer on a stored dataset: seven objects are
    allocated behind the existing ones, none of which is written, and the
    result is the frame that the function computes from the value of the
    dataset. *)
Lemma store_column_summary (h : store) (a : nat) (df : DataFrame value) :
  nth_error h a = Some (ObjFrame df) ->
  exists new f,
    Store.summarize_column_nulls a h =
      (inl (length (h ++ new)), h ++ new ++ [ObjNumFrame f]) /\
    summarize_column_nulls df = Some f.
Proof.
  intro Ha.
  destruct (summarize_column_nulls df) as [f|] eqn:Hf;
    [|rewrite summarize_column_nulls_eq in Hf; discriminate].
  exists [ ObjMask (isnull df);
           ObjSeries (sum_axis0 (isnull df));
           ObjSeries (rename (sum_axis0 (isnull df)) "rows_missing");
           ObjMask (isnull df);
           ObjSeries (mean_axis0 (isnull df));
           ObjSeries (rename (mean_axis0 (isnull df)) "percent_missing") ], f.
  split; [|reflexivity].
  unfold Store.summarize_column_nulls.
  eapply run_bind; [apply run_isnull; lookup|].
  eapply run_bind; [apply run_sum; [lookup | now left]|].
  eapply run_bind; [apply run_rename; lookup|].
  eapply run_bind; [apply run_isnull; lookup|].
  eapply run_bind; [apply run_mean; [lookup | now left]|].
  eapply run_bind; [apply run_rename; lookup|].
  erewrite run_concat2; [| lookup | lookup | exact Hf].
  rewrite <- !app_assoc. reflexivity.
Qed.

(** The row-wise summarizer on a stored dataset: nine objects are allocated,
    none is written, and the result is a Series of counts. *)
Lemma store_row_summary (h : store) (a : nat) (df : DataFrame value) :
  nth_error h a = Some (ObjFrame df) ->
  exists new s,
    Store.summarize_row_nulls a h =
      (inl (length (h ++ new)), h ++ new ++ [ObjCounts s]) /\
    summarize_row_nulls df = Some s.
Proof.
  intro Ha.
  destruct (concat_axis1
              [ rename (sum_axis1 (isnull df)) "columns_missing";
                rename (mean_axis1 (isnull df)) "percent_missing" ])
    as [f|] eqn:Hf.
  2:{ unfold concat_axis1 in Hf. simpl forallb in Hf.
      rewrite labels_eqb_refl in Hf. discriminate. }
  exists [ ObjMask (isnull df);
           ObjSeries (sum_axis1 (isnull df));
           ObjSeries (rename (sum_axis1 (isnull df)) "columns_missing");
           ObjMask (isnull df);
           ObjSeries (mean_axis1 (isnull df));
           ObjSeries (rename (mean_axis1 (isnull df)) "percent_missing");
           ObjNumFrame f;
           ObjCounts (value_counts f) ], (sort_index (value_counts f)).
  split; [|unfold summarize_row_nulls; now rewrite Hf].
  unfold Store.summarize_row_nulls.
  eapply run_bind; [apply run_isnull; lookup|].
  eapply run_bind; [apply run_sum; [lookup | now right]|].
  eapply run_bind; [apply run_rename; lookup|].
  eapply run_bind; [apply run_isnull; lookup|].
  eapply run_bind; [apply run_mean; [lookup | now right]|].
  eapply run_bind; [apply run_rename; lookup|].
  eapply run_bind; [eapply run_concat2; [lookup | lookup | exact Hf]|].
  eapply run_bind; [apply run_value_counts; lookup|].
  erewrite run_sort_index; [|lookup].
  rewrite <- !app_assoc. reflexivity.
Qed.

Lemma lookup_result (h new : store) (o : pyobj) :
  nth_error (h ++ new ++ [o]) (length (h ++ new)) = Some o.
Proof. rewrite app_assoc. apply lookup_last. Qed.

Lemma lookup_kept (h new : store) (a : nat) (o : pyobj) :
  nth_error h a = Some o -> nth_error (h ++ new) a = Some o.
Proof.
  intro H. rewrite nth_error_app1; [exact H|].
  apply nth_error_Some. congruence.
Qed.

(** C9.  Called on a stored dataset, either summarizer returns a new object
    and leaves every object that existed before the call as it was, the
    dataset among them; a second call on the same dataset again leaves
    everything in place and returns an object equal to the first result. *)
Theorem summarizers_leave_input (h : store) (a : nat) (df : DataFrame value)
  (Hdf : nth_error h a = Some (ObjFrame df)) :
  (exists r1 h1 r2 h2 f,
     Store.summarize_column_nulls a h = (inl r1, h1) /\
     Store.summarize_column_nulls a h1 = (inl r2, h2) /\
     (forall b o, nth_error h b = Some o ->
        nth_error h1 b = Some o /\ nth_error h2 b = Some o) /\
     nth_error h1 a = Some (ObjFrame df) /\
     nth_error h2 a = Some (ObjFrame df) /\
     nth_error h2 r1 = Some (ObjNumFrame f) /\
     nth_error h2 r2 = Some (ObjNumFrame f) /\
     summarize_column_nulls df = Some f) /\
  (exists r1 h1 r2 h2 s,
     Store.summarize_row_nulls a h = (inl r1, h1) /\
     Store.summarize_row_nulls a h1 = (inl r2, h2) /\
     (forall b o, nth_error h b = Some o ->
        nth_error h1 b = Some o /\ nth_error h2 b = Some o) /\
     nth_error h1 a = Some (ObjFrame df) /\
     nth_error h2 a = Some (ObjFrame df) /\
     nth_error h2 r1 = Some (ObjCounts s) /\
     nth_error h2 r2 = Some (ObjCounts s) /\
     summarize_row_nulls df = Some s).
Proof.
  split.
  - destruct (store_column_summary h a df Hdf) as (new1 & f & Hrun1 & Hf).
    assert (Hdf1 : nth_error (h ++ new1 ++ [ObjNumFrame f]) a = Some (ObjFrame df))
      by now apply lookup_kept.
    destruct (store_column_summary _ a df Hdf1) as (new2 & f' & Hrun2 & Hf').
    assert (f' = f) by congruence. subst f'.
    do 5 eexists.
    split; [exact Hrun1|]. split; [exact Hrun2|].
    split; [intros b o Hb; split; repeat apply lookup_kept; exact Hb|].
    split; [exact Hdf1|].
    split; [now apply lookup_kept|].
    split; [apply lookup_kept, lookup_result|].
    split; [apply lookup_result | exact Hf].
  - destruct (store_row_summary h a df Hdf) as (new1 & s & Hrun1 & Hs).
    assert (Hdf1 : nth_error (h ++ new1 ++ [ObjCounts s]) a = Some (ObjFrame df))
      by now apply lookup_kept.
    destruct (store_row_summary _ a df Hdf1) as (new2 & s' & Hrun2 & Hs').
    assert (s' = s) by congruence. subst s'.
    do 5 eexists.
    split; [exact Hrun1|]. split; [exact Hrun2|].
    split; [intros b o Hb; split; repeat apply lookup_kept; exact Hb|].
    split; [exact Hdf1|].
    split; [now apply lookup_kept|].
    split; [apply lookup_kept, lookup_result|].
    split; [apply lookup_result | exact Hs].
Qed.

Lemma summarizers_leave_input_witness :
  nth_error [ObjFrame four_rows] 0 = Some (ObjFrame four_rows) /\
  exists r1 h1,
    Store.summarize_row_nulls 0 [ObjFrame four_rows] = (inl r1, h1) /\
    nth_error h1 0 = Some (ObjFrame four_rows).
Proof.
  split; [reflexivity|].
  destruct (summarizers_leave_input [ObjFrame four_rows] 0 four_rows eq_refl)
    as [_ (r1 & h1 & _ & _ & _ & Hrun & _ & _ & Hkept & _)].
  exists r1, h1. split; [exact Hrun | exact Hkept].
Defined.

(** C8.  On a stored dataset [summarize_column_nulls] returns a frame with
    the columns [rows_missing] and [percent_missing], but what
    [summarize_row_nulls] returns is not a frame: it is the Series of counts
    that [value_counts] builds, the names [columns_missing] and
    [percent_missing] being those of the levels of its index, and it has no
    columns. *)
Theorem summarize_row_nulls_returns_series :
  (exists r h f,
     Store.summarize_column_nulls 0 [ObjFrame four_rows] = (inl r, h) /\
     nth_error h r = Some (ObjNumFrame f) /\
     obj_columns (ObjNumFrame f) =
       Some [LStr "rows_missing"; LStr "percent_missing"]) /\
  (exists r h s,
     Store.summarize_row_nulls 0 [ObjFrame four_rows] = (inl r, h) /\
     nth_error h r = Some (ObjCounts s) /\
     obj_columns (ObjCounts s) = None /\
     level_names s = [LStr "columns_missing"; LStr "percent_missing"]).
Proof.
  split.
  - do 3 eexists. split; [reflexivity|]. split; reflexivity.
  - do 3 eexists. split; [reflexivity|]. repeat split.
Qed.

(** ** The loop of the renderers, from three columns on *)

Lemma update_nth_length {A} (n : nat) (f : A -> A) (l : list A) :
  length (update_nth n f l) = length l.
Proof.
  revert n. induction l as [|x t IH]; intros [|n]; simpl; auto.
Qed.

Lemma update_nth_same {A} (n : nat) (f : A -> A) (l : list A) :
  nth_error (update_nth n f l) n = option_map f (nth_error l n).
Proof.
  revert n. induction l as [|x t IH]; intros [|n]; simpl; auto.
Qed.

Lemma update_nth_other {A} (n i : nat) (f : A -> A) (l : list A) :
  i <> n -> nth_error (update_nth n f l) i = nth_error l i.
Proof.
  revert n i. induction l as [|x t IH]; intros [|n] [|i] H; simpl; auto.
  congruence.
Qed.

Lemma update_nth_last {A} (f : A -> A) (pre : list A) (x : A) :
  update_nth (length pre) f (pre ++ [x]) = pre ++ [f x].
Proof.
  induction pre as [|y t IH]; simpl; [reflexivity|]. now rewrite IH.
Qed.

Lemma nth_error_last {A} (pre : list A) (x : A) :
  nth_error (pre ++ [x]) (length pre) = Some x.
Proof. rewrite nth_error_app2 by lia. now rewrite Nat.sub_diag. Qed.

Lemma run_on_axes (pre : list Figure) (g : Figure) (pos : nat) (f : Axes -> Axes) :
  on_axes (AxRef (length pre) pos) f (mkPyplot (pre ++ [g])) =
  (inl tt, mkPyplot (pre ++ [set_axes (update_nth pos f (axes g)) g])).
Proof.
  unfold on_axes, modify, update_axes. simpl figs.
  now rewrite update_nth_last.
Qed.

Lemma run_gcf (pre : list Figure) (g : Figure) :
  gcf (mkPyplot (pre ++ [g])) = (inl (length pre), mkPyplot (pre ++ [g])).
Proof.
  unfold gcf. simpl figs.
  destruct (pre ++ [g]) as [|x t] eqn:E.
  - destruct pre; discriminate.
  - rewrite <- E, length_app. simpl. do 2 f_equal. lia.
Qed.

Lemma run_gca (pre : list Figure) (g : Figure) :
  axes g <> [] ->
  gca (mkPyplot (pre ++ [g])) =
  (inl (AxRef (length pre) (current_axes g)), mkPyplot (pre ++ [g])).
Proof.
  intro H. unfold gca. eapply run_bind; [apply run_gcf|].
  simpl figs. rewrite nth_error_last.
  destruct (axes g); [congruence | reflexivity].
Qed.

Lemma py_index_nat {A} (l : list A) (k : Z) :
  0 <= k -> py_index l k = nth_error l (Z.to_nat k).
Proof.
  intro H. unfold py_index.
  destruct (k <? 0) eqn:E; [apply Z.ltb_lt in E; lia|].
  now rewrite E.
Qed.

Lemma nth_error_map_seq {A} (g : nat -> A) (n i : nat) :
  (i < n)%nat -> nth_error (map g (seq 0 n)) i = Some (g i).
Proof.
  intro H. rewrite nth_error_map.
  rewrite (nth_error_nth' _ O) by now rewrite length_seq.
  now rewrite seq_nth.
Qed.

(** In a grid of [rows] rows, [ax[k // 3][k % 3]] is the Axes at position [k]
    of the figure. *)
Lemma run_cell {S B} (fig rows k : nat) (cont : axobj -> M S B) (s : S) :
  (k < 3 * rows)%nat ->
  (row <- ax_getitem (Ax2D (map (grid_row fig 3) (seq 0 rows))) (Z.of_nat k / 3) ;;
   cell <- ax_getitem row (Z.of_nat k mod 3) ;;
   cont cell) s =
  cont (AxRef fig k) s.
Proof.
  intro Hk.
  assert (Hq : 0 <= Z.of_nat k / 3) by (apply Z.div_pos; lia).
  assert (Hr : 0 <= Z.of_nat k mod 3 < 3) by (apply Z.mod_pos_bound; lia).
  assert (Hdiv : Z.of_nat k = 3 * (Z.of_nat k / 3) + Z.of_nat k mod 3)
    by (apply Z.div_mod; lia).
  unfold bind, ax_getitem at 1.
  rewrite py_index_nat by exact Hq.
  rewrite nth_error_map_seq by lia.
  unfold ret, ax_getitem. rewrite py_index_nat by lia.
  unfold grid_row. rewrite nth_error_map_seq by lia.
  unfold ret.
  replace (Z.to_nat (Z.of_nat k / 3) * 3 + Z.to_nat (Z.of_nat k mod 3))%nat
    with k by lia.
  reflexivity.
Qed.

Lemma run_hist_pass (df : DataFrame value) (pre : list Figure) (rows k : nat)
  (c : string) (sel : selection) (g : Figure) :
  (k < 3 * rows)%nat -> select df c = Some sel -> axes g <> [] ->
  (data <- getitem df c ;;
   row <- ax_getitem (Ax2D (map (grid_row (length pre) 3) (seq 0 rows)))
            (Z.of_nat k / 3) ;;
   cell <- ax_getitem row (Z.of_nat k mod 3) ;;
   sns_histplot data 5 cell ;;
   row <- ax_getitem (Ax2D (map (grid_row (length pre) 3) (seq 0 rows)))
            (Z.of_nat k / 3) ;;
   cell <- ax_getitem row (Z.of_nat k mod 3) ;;
   tick_params cell 30 ;;
   plt_title c ;;
   plt_ticklabel_format false ;;
   plt_grid false ;;
   plt_tight_layout) (mkPyplot (pre ++ [g])) =
  (inl tt, mkPyplot (pre ++ [loop_pass (Hist sel 5) c k g])).
Proof.
  intros Hk Hsel Hax.
  assert (Hne : forall j (f : Axes -> Axes) l, l <> [] -> update_nth j f l <> []).
  { intros j f l Hl E. apply Hl. apply length_zero_iff_nil.
    rewrite <- (update_nth_length j f l), E. reflexivity. }
  unfold getitem. rewrite Hsel.
  eapply run_bind; [reflexivity|].
  rewrite run_cell by exact Hk.
  eapply run_bind; [apply run_on_axes|].
  rewrite run_cell by exact Hk.
  eapply run_bind; [apply run_on_axes|].
  unfold plt_title, plt_ticklabel_format, plt_grid, plt_tight_layout.
  eapply run_bind.
  { eapply run_bind; [apply run_gca; simpl; auto|]. apply run_on_axes. }
  eapply run_bind.
  { eapply run_bind; [apply run_gca; simpl; auto|]. apply run_on_axes. }
  eapply run_bind.
  { eapply run_bind; [apply run_gca; simpl; auto|]. apply run_on_axes. }
  eapply run_bind; [apply run_gcf|].
  unfold modify. simpl figs. rewrite update_nth_last. reflexivity.
Qed.

Lemma run_box_pass (df : DataFrame value) (pre : list Figure) (rows k : nat)
  (c : string) (sel : selection) (g : Figure) :
  (k < 3 * rows)%nat -> select df c = Some sel -> axes g <> [] ->
  (row <- ax_getitem (Ax2D (map (grid_row (length pre) 3) (seq 0 rows)))
            (Z.of_nat k / 3) ;;
   cell <- ax_getitem row (Z.of_nat k mod 3) ;;
   sns_boxplot df c cell ;;
   row <- ax_getitem (Ax2D (map (grid_row (length pre) 3) (seq 0 rows)))
            (Z.of_nat k / 3) ;;
   cell <- ax_getitem row (Z.of_nat k mod 3) ;;
   tick_params cell 30 ;;
   plt_title c ;;
   plt_ticklabel_format false ;;
   plt_grid false ;;
   plt_tight_layout) (mkPyplot (pre ++ [g])) =
  (inl tt, mkPyplot (pre ++ [loop_pass (Box sel) c k g])).
Proof.
  intros Hk Hsel Hax.
  assert (Hne : forall j (f : Axes -> Axes) l, l <> [] -> update_nth j f l <> []).
  { intros j f l Hl E. apply Hl. apply length_zero_iff_nil.
    rewrite <- (update_nth_length j f l), E. reflexivity. }
  rewrite run_cell by exact Hk.
  eapply run_bind; [unfold sns_boxplot; rewrite Hsel; apply run_on_axes|].
  rewrite run_cell by exact Hk.
  eapply run_bind; [apply run_on_axes|].
  unfold plt_title, plt_ticklabel_format, plt_grid, plt_tight_layout.
  eapply run_bind.
  { eapply run_bind; [apply run_gca; simpl; auto|]. apply run_on_axes. }
  eapply run_bind.
  { eapply run_bind; [apply run_gca; simpl; auto|]. apply run_on_axes. }
  eapply run_bind.
  { eapply run_bind; [apply run_gca; simpl; auto|]. apply run_on_axes. }
  eapply run_bind; [apply run_gcf|].
  unfold modify. simpl figs. rewrite update_nth_last. reflexivity.
Qed.

Lemma last_titled_plain (done : list string) :
  artists (last (map titled done) blank_axes) = [] /\
  labelrotation (last (map titled done) blank_axes) = None.
Proof.
  induction done as [|c t IH]; [split; reflexivity|].
  simpl map. destruct t as [|c' t']; [split; reflexivity|].
  exact IH.
Qed.

Lemma last_map_titled (l : list string) :
  l <> [] -> last (map titled l) blank_axes = titled (last l "").
Proof.
  induction l as [|c t IH]; [congruence|]. intros _.
  destruct t as [|c' t']; [reflexivity|].
  change (last (map titled (c' :: t')) blank_axes = titled (last (c' :: t') "")).
  apply IH. discriminate.
Qed.

Lemma loop_pass_invariant (df : DataFrame value) (art : selection -> Artist)
  (rows : nat) (done : list string) (g : Figure) (c : string) (sel : selection) :
  loop_invariant df art rows done g ->
  (length done < 3 * rows - 1)%nat ->
  select df c = Some sel ->
  loop_invariant df art rows (done ++ [c])
    (loop_pass (art sel) c (length done) g).
Proof.
  intros (Hlen & Hcur & Hdrawn & Hblank & Hlast) Hk Hsel.
  unfold loop_invariant, loop_pass. simpl axes. simpl current_axes.
  rewrite Hcur.
  split; [now rewrite !update_nth_length|]. split; [reflexivity|].
  split; [|split].
  - intros j c' sel' Hj Hsel'.
    destruct (Nat.lt_ge_cases j (length done)) as [Hlt|Hge].
    + rewrite nth_error_app1 in Hj by exact Hlt.
      rewrite !update_nth_other by lia. now apply (Hdrawn j c' sel').
    + assert (j = length done).
      { assert (Hb : (j < length (done ++ [c]))%nat)
          by (apply nth_error_Some; congruence).
        rewrite length_app in Hb. simpl in Hb. lia. }
      subst j. rewrite nth_error_last in Hj. inversion Hj; subst c'.
      assert (sel' = sel) by congruence. subst sel'.
      rewrite !update_nth_other by lia. rewrite !update_nth_same.
      rewrite Hblank by lia. reflexivity.
  - intros j Hj. rewrite length_app in Hj. simpl in Hj.
    rewrite !update_nth_other by lia. apply Hblank. lia.
  - rewrite !update_nth_same. rewrite !update_nth_other by lia.
    rewrite Hlast. rewrite map_app. cbn [map]. rewrite last_last.
    simpl option_map.
    destruct (last_titled_plain done) as [Ha Hr].
    destruct (last (map titled done) blank_axes) as [ar lr ti uo gr].
    simpl in Ha, Hr. subst ar lr. reflexivity.
Qed.

Section Loop.

Variable df : DataFrame value.
Variable art : selection -> Artist.
Variable pre : list Figure.
Variable rows : nat.
Variable body : Z * string -> M pyplot unit.

Hypothesis body_pass : forall k c sel g,
  (k < 3 * rows)%nat -> select df c = Some sel -> axes g <> [] ->
  body (Z.of_nat k, c) (mkPyplot (pre ++ [g])) =
  (inl tt, mkPyplot (pre ++ [loop_pass (art sel) c k g])).

Lemma run_loop (cols done : list string) (g : Figure) :
  loop_invariant df art rows done g ->
  (length done + length cols < 3 * rows)%nat ->
  Forall (fun c => select df c <> None) cols ->
  exists g',
    for_each (enumerate_from (Z.of_nat (length done)) cols) body
      (mkPyplot (pre ++ [g])) = (inl tt, mkPyplot (pre ++ [g'])) /\
    loop_invariant df art rows (done ++ cols) g' /\
    grid_shape g' = grid_shape g.
Proof.
  revert done g. induction cols as [|c t IH]; intros done g Hinv Hlen Hsel.
  - exists g. rewrite app_nil_r.
    split; [reflexivity|]. split; [exact Hinv | reflexivity].
  - simpl in Hlen. inversion Hsel as [|? ? Hc Ht]; subst.
    destruct (select df c) as [sel|] eqn:Ec; [|congruence].
    assert (Hax : axes g <> []).
    { destruct Hinv as (Hl & _). intro E. rewrite E in Hl. simpl in Hl. lia. }
    pose proof (loop_pass_invariant df art rows done g c sel Hinv
                  ltac:(lia) Ec) as Hinv'.
    destruct (IH (done ++ [c]) (loop_pass (art sel) c (length done) g) Hinv')
      as (g' & Hrun & Hinv'' & Hshape); [rewrite length_app; simpl; lia | exact Ht |].
    exists g'. split; [|split].
    + cbn [enumerate_from for_each].
      eapply run_bind; [apply (body_pass (length done) c sel g); [lia | exact Ec | exact Hax]|].
      rewrite length_app in Hrun. simpl length in Hrun.
      replace (Z.of_nat (length done) + 1) with (Z.of_nat (length done + 1)) by lia.
      exact Hrun.
    + now rewrite <- app_assoc in Hinv''.
    + exact Hshape.
Qed.

End Loop.

Lemma fresh_figure_invariant (df : DataFrame value) (art : selection -> Artist)
  (n : Z) :
  0 <= n ->
  loop_invariant df art (Z.to_nat (n / 3 + 1)) [] (fresh_figure n).
Proof.
  intro Hn. unfold loop_invariant, fresh_figure. simpl.
  assert (Hq : 0 <= n / 3) by (apply Z.div_pos; lia).
  rewrite repeat_length.
  split; [lia|]. split; [lia|]. split; [|split].
  - intros j c sel Hj. destruct j; discriminate.
  - intros j Hj. apply nth_error_repeat. lia.
  - apply nth_error_repeat. lia.
Qed.

Lemma run_renderer (df : DataFrame value) (art : selection -> Artist)
  (body : axobj -> Z * string -> M pyplot unit) (columns : list string)
  (st : pyplot) :
  (forall pre rows k c sel g,
     (k < 3 * rows)%nat -> select df c = Some sel -> axes g <> [] ->
     body (Ax2D (map (grid_row (length pre) 3) (seq 0 rows))) (Z.of_nat k, c)
          (mkPyplot (pre ++ [g])) =
     (inl tt, mkPyplot (pre ++ [loop_pass (art sel) c k g]))) ->
  (3 <= length columns)%nat ->
  Forall (fun c => select df c <> None) columns ->
  exists st',
    ('(fig, ax) <- _create_sub_plots (len columns) ;;
     for_each (enumerate columns) (body ax) ;;
     plt_show) st = (inl tt, st') /\
    columns_drawn df art columns (length (figs st)) st'.
Proof.
  intros Hbody Hlen Hpresent.
  set (n := len columns).
  assert (Hn : 3 <= n) by (unfold n, len; lia).
  assert (Hq : 1 <= n / 3) by (apply (Z.div_le_lower_bound n 3 1); lia).
  assert (Hr : 0 <= n mod 3 < 3) by (apply Z.mod_pos_bound; lia).
  assert (Hdm : n = 3 * (n / 3) + n mod 3) by (apply Z.div_mod; lia).
  set (rows := Z.to_nat (n / 3 + 1)).
  assert (Hsq : squeeze (length (figs st)) rows 3 =
                Ax2D (map (grid_row (length (figs st)) 3) (seq 0 rows))).
  { unfold squeeze. destruct rows as [|[|m]] eqn:E; try reflexivity; lia. }
  destruct (run_loop df art (figs st) rows
              (body (Ax2D (map (grid_row (length (figs st)) 3) (seq 0 rows))))
              (Hbody (figs st) rows) columns [] (fresh_figure n)
              (fresh_figure_invariant df art n ltac:(lia)))
    as (g' & Hrun & Hinv & Hshape).
  { simpl. unfold n, len in *. lia. }
  { exact Hpresent. }
  exists (mkPyplot (map (set_shown true) (figs st ++ [g']))).
  split.
  - eapply run_bind; [apply create_sub_plots_eq; lia|].
    cbv beta iota. fold n. fold rows. rewrite Hsq.
    eapply run_bind; [exact Hrun|]. reflexivity.
  - destruct Hinv as (_ & _ & Hdrawn & _ & Hlast).
    assert (Hfig : nth_error (map (set_shown true) (figs st ++ [g']))
                     (length (figs st)) = Some (set_shown true g'))
      by now rewrite nth_error_map, nth_error_last.
    unfold columns_drawn, cell_axes. simpl figs. rewrite Hfig.
    simpl axes. simpl grid_shape. rewrite Hshape. simpl snd.
    split.
    + intros i c sel Hi Hsel.
      assert (Hi0 : 0 <= Z.of_nat i / 3) by (apply Z.div_pos; lia).
      pose proof (Z.mod_pos_bound (Z.of_nat i) 3 ltac:(lia)) as Him.
      pose proof (Z.div_mod (Z.of_nat i) 3 ltac:(lia)) as Hid.
      replace (Z.to_nat (Z.of_nat i / 3 * 3 + Z.of_nat i mod 3)) with i by lia.
      now apply (Hdrawn i c sel).
    + fold n.
      replace (Z.to_nat (n / 3 * 3 + 2)) with (3 * rows - 1)%nat
        by (unfold rows; lia).
      simpl app in Hlast. rewrite Hlast.
      rewrite last_map_titled; [reflexivity|].
      destruct columns; [simpl in Hlen; lia | discriminate].
Qed.



(** * Further properties *)

(** ** The subplot grid at its bounds *)



(** X2.  For a count n that is not negative, [_create_sub_plots] adds one
    figure behind the existing ones and returns its number.  The figure has
    [rows] rows of 3 blank Axes and is 14 wide and 3 high per row; it has room
    for all n features and always at least one and at most three cells to
    spare; its last Axes is the current one. *)
Theorem grid_has_room (n : Z) (st : pyplot) (Hn : 0 <= n) :
  exists ax g rows,
    _create_sub_plots n st = (inl (length (figs st), ax), mkPyplot (figs st ++ [g])) /\
    grid_shape g = (rows, 3) /\
    len (axes g) = rows * 3 /\
    figsize g = (inject_Z 14, inject_Z (rows * 3)) /\
    n < rows * 3 <= n + 3 /\
    Forall (fun a => a = blank_axes) (axes g) /\
    Z.of_nat (current_axes g) = rows * 3 - 1.
Proof.
  rewrite create_sub_plots_eq by exact Hn.
  exists (squeeze (length (figs st)) (Z.to_nat (n / 3 + 1)) 3),
         (fresh_figure n), (n / 3 + 1).
  assert (Hq : 0 <= n / 3) by (apply Z.div_pos; lia).
  pose proof (Z.mod_pos_bound n 3 ltac:(lia)) as Hm.
  pose proof (Z.div_mod n 3 ltac:(lia)) as Hd.
  unfold fresh_figure, len. simpl. rewrite repeat_length.
  repeat split; try lia.
  apply Forall_forall. intros a Ha. now apply repeat_spec in Ha.
Qed.

Lemma grid_has_room_witness :
  0 <= 6 /\
  exists ax g rows,
    _create_sub_plots 6 no_figures = (inl (0%nat, ax), mkPyplot [g]) /\
    grid_shape g = (rows, 3) /\ len (axes g) = 9.
Proof.
  split; [lia|].
  destruct (grid_has_room 6 no_figures ltac:(lia))
    as (ax & g & rows & Hrun & Hshape & Hlen & _ & Hroom & _).
  exists ax, g, rows. split; [exact Hrun|]. split; [exact Hshape|]. lia.
Defined.

(** ** The renderers on an empty list *)

(** X3.  On an empty list of columns both renderers complete without raising
    and without drawing: they add a figure of one row of three blank Axes
    and display it, together with the figures that were open before. *)
Theorem empty_column_list_draws_nothing (df : DataFrame value) (st : pyplot) :
  let shown_figs :=
    mkPyplot (map (set_shown true) (figs st) ++ [set_shown true (fresh_figure 0)]) in
  get_hist df [] st = (inl tt, shown_figs) /\
  get_box df [] st = (inl tt, shown_figs) /\
  axes (set_shown true (fresh_figure 0)) = [blank_axes; blank_axes; blank_axes].
Proof.
  assert (H : forall l : list Figure,
            map (set_shown true) (l ++ [fresh_figure 0]) =
            map (set_shown true) l ++ [set_shown true (fresh_figure 0)])
    by (intro l; now rewrite map_app).
  repeat split.
  - unfold get_hist, bind, _create_sub_plots, bind, plt_subplots, plt_show, modify.
    simpl. now rewrite H.
  - unfold get_box, bind, _create_sub_plots, bind, plt_subplots, plt_show, modify.
    simpl. now rewrite H.
Qed.

(** ** The single-variable view *)

Lemma run_lift {A} (m : M pyplot A) (c : canvas) r st :
  m (plots c) = (r, st) -> lift m c = (r, mkCanvas st (suptitles c)).
Proof. unfold lift. now intros ->. Qed.

Lemma run_panels (c : canvas) :
  lift (plt_subplots 1 2 (inject_Z 14, inject_Z 4)) c =
  (inl (length (figs (plots c)),
        Ax1D [(length (figs (plots c)), 0%nat); (length (figs (plots c)), 1%nat)]),
   mkCanvas (mkPyplot (figs (plots c) ++ [blank_panels])) (suptitles c)).
Proof. apply run_lift. reflexivity. Qed.



(** X5.  For a feature that is not a column of the dataset,
    [plot_single_variable] raises KeyError at [df[feature]].  By then the
    figure exists and has its title: it is left open with two blank panels,
    and nothing is displayed. *)
Theorem plot_single_variable_unknown_feature (df : DataFrame value)
  (feature title : string) (histplot_bins : Z) (c : canvas)
  (Hsel : select df feature = None) :
  plot_single_variable df feature title histplot_bins c =
  (inr KeyError,
   mkCanvas (mkPyplot (figs (plots c) ++ [blank_panels]))
            ((length (figs (plots c)), title) :: suptitles c)).
Proof.
  unfold plot_single_variable.
  eapply run_bind; [apply run_panels|]. cbv beta iota.
  eapply run_bind; [reflexivity|].
  unfold getitem. rewrite Hsel. reflexivity.
Qed.

Lemma plot_single_variable_unknown_feature_witness :
  select abc_frame "Z" = None /\
  exists c, plot_single_variable abc_frame "Z" "t" 50 (mkCanvas no_figures []) =
            (inr KeyError, c).
Proof.
  split; [reflexivity|]. eexists.
  apply (plot_single_variable_unknown_feature abc_frame "Z" "t" 50
           (mkCanvas no_figures []) eq_refl).
Defined.

(** ** The renderers from three columns on *)

Lemma for_each_app {S A} (l1 l2 : list A) (body : A -> M S unit) (s : S) :
  for_each (l1 ++ l2) body s = (for_each l1 body ;; for_each l2 body) s.
Proof.
  revert s. induction l1 as [|x t IH]; intro s; simpl; [reflexivity|].
  unfold bind. destruct (body x s) as [[u|e] s']; [|reflexivity].
  rewrite IH. reflexivity.
Qed.

Lemma enumerate_from_app {A} (k : Z) (l1 l2 : list A) :
  enumerate_from k (l1 ++ l2) =
  enumerate_from k l1 ++ enumerate_from (k + len l1) l2.
Proof.
  revert k. induction l1 as [|x t IH]; intro k; simpl.
  - f_equal. unfold len. simpl. lia.
  - rewrite IH. do 3 f_equal. unfold len. simpl length. lia.
Qed.

Section Passes.

Variable df : DataFrame value.
Variable art : selection -> Artist.
Variable pre : list Figure.
Variable rows : nat.
Variable body : Z * string -> M pyplot unit.

Hypothesis body_pass : forall k c sel g,
  (k < 3 * rows)%nat -> select df c = Some sel -> axes g <> [] ->
  body (Z.of_nat k, c) (mkPyplot (pre ++ [g])) =
  (inl tt, mkPyplot (pre ++ [loop_pass (art sel) c k g])).

(** The passes over columns that are all present, with what they leave of
    the figure besides its Axes. *)
Lemma run_passes (cols done : list string) (g : Figure) :
  loop_invariant df art rows done g ->
  (length done + length cols < 3 * rows)%nat ->
  Forall (fun c => select df c <> None) cols ->
  exists g',
    for_each (enumerate_from (Z.of_nat (length done)) cols) body
      (mkPyplot (pre ++ [g])) = (inl tt, mkPyplot (pre ++ [g'])) /\
    loop_invariant df art rows (done ++ cols) g' /\
    grid_shape g' = grid_shape g /\
    figsize g' = figsize g /\
    shown g' = shown g /\
    (cols <> [] -> tight g' = true).
Proof.
  revert done g. induction cols as [|c t IH]; intros done g Hinv Hlen Hsel.
  - exists g. rewrite app_nil_r.
    split; [reflexivity|]. split; [exact Hinv|].
    repeat split; congruence.
  - simpl in Hlen. inversion Hsel as [|? ? Hc Ht]; subst.
    destruct (select df c) as [sel|] eqn:Ec; [|congruence].
    assert (Hax : axes g <> []).
    { destruct Hinv as (Hl & _). intro E. rewrite E in Hl. simpl in Hl. lia. }
    pose proof (loop_pass_invariant df art rows done g c sel Hinv
                  ltac:(lia) Ec) as Hinv'.
    destruct (IH (done ++ [c]) (loop_pass (art sel) c (length done) g) Hinv')
      as (g' & Hrun & Hinv'' & Hshape & Hsize & Hshown & Htight);
      [rewrite length_app; simpl; lia | exact Ht |].
    exists g'. split; [|split; [|split; [|split; [|split]]]].
    + cbn [enumerate_from for_each].
      eapply run_bind;
        [apply (body_pass (length done) c sel g); [lia | exact Ec | exact Hax]|].
      rewrite length_app in Hrun. simpl length in Hrun.
      replace (Z.of_nat (length done) + 1) with (Z.of_nat (length done + 1)) by lia.
      exact Hrun.
    + now rewrite <- app_assoc in Hinv''.
    + exact Hshape.
    + exact Hsize.
    + exact Hshown.
    + intros _. destruct t as [|c' t'].
      * cbn [enumerate_from for_each] in Hrun. unfold ret in Hrun.
        inversion Hrun as [Hg]. apply app_inj_tail in Hg.
        destruct Hg as [_ Hg]. rewrite <- Hg. reflexivity.
      * apply Htight. discriminate.
Qed.

(** The passes stop at the first column on which the body raises. *)
Lemma run_passes_stop (e : exn) (pref : list string) (c : string)
  (rest done : list string) (g : Figure) :
  (forall k g,
     (k < 3 * rows)%nat -> axes g <> [] ->
     body (Z.of_nat k, c) (mkPyplot (pre ++ [g])) =
     (inr e, mkPyplot (pre ++ [g]))) ->
  loop_invariant df art rows done g ->
  (length done + length pref + 1 < 3 * rows)%nat ->
  Forall (fun c => select df c <> None) pref ->
  exists g',
    for_each (enumerate_from (Z.of_nat (length done)) (pref ++ c :: rest)) body
      (mkPyplot (pre ++ [g])) = (inr e, mkPyplot (pre ++ [g'])) /\
    loop_invariant df art rows (done ++ pref) g' /\
    grid_shape g' = grid_shape g /\
    shown g' = shown g.
Proof.
  intros Hraise Hinv Hlen Hpref.
  destruct (run_passes pref done g Hinv ltac:(lia) Hpref)
    as (g' & Hrun & Hinv' & Hshape & _ & Hshown & _).
  exists g'. split; [|split; [exact Hinv' | split; [exact Hshape | exact Hshown]]].
  rewrite enumerate_from_app, for_each_app.
  eapply run_bind; [exact Hrun|].
  cbn [enumerate_from for_each].
  assert (Hax : axes g' <> []).
  { destruct Hinv' as (Hl & _). intro E. rewrite E in Hl. simpl in Hl. lia. }
  unfold bind.
  replace (Z.of_nat (length done) + len pref)
    with (Z.of_nat (length done + length pref)) by (unfold len; lia).
  rewrite (Hraise (length done + length pref)%nat g' ltac:(lia) Hax).
  reflexivity.
Qed.

End Passes.

Lemma run_bind_raise {S A B} (m : M S A) (k : A -> M S B) (s s' : S) (e : exn) :
  m s = (inr e, s') -> bind m k s = (inr e, s').
Proof. unfold bind. now intros ->. Qed.

Lemma grid_is_two_dimensional (fig : nat) (n : Z) :
  3 <= n ->
  squeeze fig (Z.to_nat (n / 3 + 1)) 3 =
  Ax2D (map (grid_row fig 3) (seq 0 (Z.to_nat (n / 3 + 1)))).
Proof.
  intro Hn.
  assert (Hq : 1 <= n / 3) by (apply (Z.div_le_lower_bound n 3 1); lia).
  unfold squeeze.
  destruct (Z.to_nat (n / 3 + 1)) as [|[|m]] eqn:E; try reflexivity; lia.
Qed.

Lemma columns_fit (n : Z) :
  0 <= n -> (Z.to_nat n < 3 * Z.to_nat (n / 3 + 1))%nat.
Proof.
  intro Hn.
  assert (Hq : 0 <= n / 3) by (apply Z.div_pos; lia).
  pose proof (Z.mod_pos_bound n 3 ltac:(lia)).
  pose proof (Z.div_mod n 3 ltac:(lia)). lia.
Qed.

Lemma cell_position (i : nat) :
  Z.to_nat (Z.of_nat i / 3 * 3 + Z.of_nat i mod 3) = i.
Proof.
  assert (Hi0 : 0 <= Z.of_nat i / 3) by (apply Z.div_pos; lia).
  pose proof (Z.mod_pos_bound (Z.of_nat i) 3 ltac:(lia)).
  pose proof (Z.div_mod (Z.of_nat i) 3 ltac:(lia)). lia.
Qed.

(** A renderer whose body raises [e] on the column [c] stops there. *)
Lemma run_renderer_stop (df : DataFrame value) (art : selection -> Artist)
  (body : axobj -> Z * string -> M pyplot unit) (e : exn)
  (done : list string) (c : string) (rest : list string) (st : pyplot) :
  (forall pre rows k c sel g,
     (k < 3 * rows)%nat -> select df c = Some sel -> axes g <> [] ->
     body (Ax2D (map (grid_row (length pre) 3) (seq 0 rows))) (Z.of_nat k, c)
          (mkPyplot (pre ++ [g])) =
     (inl tt, mkPyplot (pre ++ [loop_pass (art sel) c k g]))) ->
  (forall pre rows k g,
     (k < 3 * rows)%nat -> axes g <> [] ->
     body (Ax2D (map (grid_row (length pre) 3) (seq 0 rows))) (Z.of_nat k, c)
          (mkPyplot (pre ++ [g])) =
     (inr e, mkPyplot (pre ++ [g]))) ->
  (3 <= length (done ++ c :: rest))%nat ->
  Forall (fun c => select df c <> None) done ->
  exists st',
    ('(fig, ax) <- _create_sub_plots (len (done ++ c :: rest)) ;;
     for_each (enumerate (done ++ c :: rest)) (body ax) ;;
     plt_show) st = (inr e, st') /\
    stopped_after df art done (length (done ++ c :: rest)) st st'.
Proof.
  intros Hbody Hraise Hlen Hpresent.
  set (cols := done ++ c :: rest) in *.
  set (n := len cols).
  assert (Hn : 3 <= n) by (unfold n, len; lia).
  set (rows := Z.to_nat (n / 3 + 1)).
  pose proof (grid_is_two_dimensional (length (figs st)) n Hn) as Hsq.
  pose proof (columns_fit n ltac:(lia)) as Hfit. fold rows in Hsq, Hfit.
  assert (Hcols : length cols = (length done + S (length rest))%nat)
    by (unfold cols; rewrite length_app; reflexivity).
  assert (Hnat : Z.to_nat n = length cols) by (unfold n, len; lia).
  destruct (run_passes_stop df art (figs st) rows
              (body (Ax2D (map (grid_row (length (figs st)) 3) (seq 0 rows))))
              (Hbody (figs st) rows) e done c rest [] (fresh_figure n)
              (Hraise (figs st) rows)
              (fresh_figure_invariant df art n ltac:(lia)))
    as (g' & Hrun & Hinv & Hshape & Hshown).
  { simpl. lia. }
  { exact Hpresent. }
  exists (mkPyplot (figs st ++ [g'])). split.
  - eapply run_bind; [apply create_sub_plots_eq; lia|].
    cbv beta iota. fold n. fold rows. rewrite Hsq.
    apply run_bind_raise. exact Hrun.
  - destruct Hinv as (_ & _ & Hdrawn & Hblank & _). simpl app in *.
    exists g'. split; [reflexivity|]. split; [exact Hshown|].
    unfold cell_axes. simpl figs. rewrite nth_error_last, Hshape. simpl snd.
    split.
    + intros i c' sel Hi Hsel. rewrite cell_position. now apply (Hdrawn i c' sel).
    + intros i Hi. rewrite cell_position. apply Hblank. lia.
Qed.

(** A renderer whose body completes on every column that is present
    completes, and this is what it leaves of the figures. *)
Lemma run_renderer_completed (df : DataFrame value) (art : selection -> Artist)
  (body : axobj -> Z * string -> M pyplot unit) (columns : list string)
  (st : pyplot) :
  (forall pre rows k c sel g,
     (k < 3 * rows)%nat -> select df c = Some sel -> axes g <> [] ->
     body (Ax2D (map (grid_row (length pre) 3) (seq 0 rows))) (Z.of_nat k, c)
          (mkPyplot (pre ++ [g])) =
     (inl tt, mkPyplot (pre ++ [loop_pass (art sel) c k g]))) ->
  (3 <= length columns)%nat ->
  Forall (fun c => select df c <> None) columns ->
  exists st',
    ('(fig, ax) <- _create_sub_plots (len columns) ;;
     for_each (enumerate columns) (body ax) ;;
     plt_show) st = (inl tt, st') /\
    completed_on (len columns) st st'.
Proof.
  intros Hbody Hlen Hpresent.
  set (n := len columns).
  assert (Hn : 3 <= n) by (unfold n, len; lia).
  set (rows := Z.to_nat (n / 3 + 1)).
  pose proof (grid_is_two_dimensional (length (figs st)) n Hn) as Hsq.
  pose proof (columns_fit n ltac:(lia)) as Hfit. fold rows in Hsq, Hfit.
  assert (Hnat : Z.to_nat n = length columns) by (unfold n, len; lia).
  destruct (run_passes df art (figs st) rows
              (body (Ax2D (map (grid_row (length (figs st)) 3) (seq 0 rows))))
              (Hbody (figs st) rows) columns [] (fresh_figure n)
              (fresh_figure_invariant df art n ltac:(lia)))
    as (g' & Hrun & Hinv & Hshape & Hsize & Hshown & Htight).
  { simpl. lia. }
  { exact Hpresent. }
  exists (mkPyplot (map (set_shown true) (figs st ++ [g']))). split.
  - eapply run_bind; [apply create_sub_plots_eq; lia|].
    cbv beta iota. fold n. fold rows. rewrite Hsq.
    eapply run_bind; [exact Hrun|]. reflexivity.
  - exists (set_shown true g'). simpl figs.
    split; [now rewrite map_app|].
    destruct Hinv as (Hl & _).
    assert (Hq : 0 <= n / 3) by (apply Z.div_pos; lia).
    simpl. rewrite Hshape, Hsize.
    split; [reflexivity|]. split; [reflexivity|].
    split; [unfold len; rewrite Hl; unfold rows; lia|].
    split; [|reflexivity].
    apply Htight. destruct columns; [simpl in Hlen; lia | discriminate].
Qed.

Lemma abc_columns_present :
  Forall (fun c => select abc_frame c <> None) ["A"; "B"; "C"; "A"].
Proof. repeat constructor; discriminate. Qed.









(** ** The null summaries: sizes and bounds *)

Lemma total_count_tally {K} (cmp : K -> K -> comparison) k acc :
  total_count (tally cmp k acc) = total_count acc + 1.
Proof.
  induction acc as [|[k' c] rest IH]; cbn [tally total_count]; [lia|].
  destruct (cmp k k'); cbn [total_count]; lia.
Qed.

Lemma total_count_group_size {K} (cmp : K -> K -> comparison) rows :
  total_count (group_size cmp rows) = Z.of_nat (length rows).
Proof.
  induction rows as [|r rows IH]; cbn [group_size fold_right length];
    [reflexivity|].
  fold (group_size cmp rows). rewrite total_count_tally, IH. lia.
Qed.

Lemma total_count_insert_by {K} (le : K * Z -> K * Z -> bool) x l :
  total_count (insert_by le x l) = snd x + total_count l.
Proof.
  induction l as [|y t IH]; cbn [insert_by total_count].
  - destruct x; simpl; lia.
  - destruct (le x y); cbn [total_count].
    + destruct x; simpl; lia.
    + destruct y. rewrite IH. lia.
Qed.

Lemma total_count_sort_by {K} (le : K * Z -> K * Z -> bool) l :
  total_count (sort_by le l) = total_count l.
Proof.
  induction l as [|x t IH]; cbn [sort_by fold_right]; [reflexivity|].
  fold (sort_by le t). rewrite total_count_insert_by, IH.
  destruct x; reflexivity.
Qed.

Lemma row_pairs_length (df : DataFrame value) :
  length (row_pairs df) = nrows df.
Proof. unfold row_pairs. now rewrite length_map, length_seq. Qed.

(** The table of the row-wise summary of a dataset with columns. *)
Lemma row_summary_table (df : DataFrame value) :
  wf df -> columns df <> [] ->
  exists s,
    summarize_row_nulls df = Some s /\
    entries s =
      sort_by (fun a b => cmp_leb key_cmp (fst a) (fst b))
        (sort_by (fun a b => Z.leb (snd b) (snd a))
           (group_size key_cmp (row_pairs df))).
Proof.
  intros Hwf Hc. eexists. split; [apply (summarize_row_nulls_eq df Hwf)|].
  simpl. now rewrite (row_pairs_kept df Hc).
Qed.

(** X11.  For every well-shaped dataset with at least one column, the group
    sizes of the row-wise summary add up to the number of rows: every row is
    counted in exactly one group. *)
Theorem row_groups_cover_rows (df : DataFrame value)
  (Hwf : wf df) (Hcols : columns df <> []) :
  exists s,
    summarize_row_nulls df = Some s /\
    total_count (entries s) = Z.of_nat (nrows df).
Proof.
  destruct (row_summary_table df Hwf Hcols) as (s & Hs & He).
  exists s. split; [exact Hs|].
  rewrite He, !total_count_sort_by, total_count_group_size.
  now rewrite row_pairs_length.
Qed.

Lemma row_groups_cover_rows_witness :
  wf four_rows /\ columns four_rows <> [] /\
  exists s, summarize_row_nulls four_rows = Some s /\ total_count (entries s) = 4.
Proof.
  split; [exact four_rows_wf|]. split; [discriminate|].
  exact (row_groups_cover_rows four_rows four_rows_wf ltac:(discriminate)).
Defined.

Lemma tally_length {K} (cmp : K -> K -> comparison) k acc :
  (length (tally cmp k acc) <= S (length acc))%nat.
Proof.
  induction acc as [|[k' c] rest IH]; simpl; [lia|].
  destruct (cmp k k'); simpl; lia.
Qed.

Lemma group_size_length {K} (cmp : K -> K -> comparison) rows :
  (length (group_size cmp rows) <= length rows)%nat.
Proof.
  induction rows as [|r rows IH]; simpl; [lia|].
  pose proof (tally_length cmp r (group_size cmp rows)).
  unfold group_size in *. lia.
Qed.

Lemma insert_by_length {A} (le : A -> A -> bool) x l :
  length (insert_by le x l) = S (length l).
Proof.
  induction l as [|y t IH]; simpl; [reflexivity|].
  destruct (le x y); simpl; [reflexivity | now rewrite IH].
Qed.

Lemma sort_by_length {A} (le : A -> A -> bool) l :
  length (sort_by le l) = length l.
Proof.
  induction l as [|x t IH]; simpl; [reflexivity|].
  fold (sort_by le t). now rewrite insert_by_length, IH.
Qed.

Lemma occurrences_bounds {K} (cmp : K -> K -> comparison) k rows :
  0 <= occurrences cmp k rows <= Z.of_nat (length rows).
Proof.
  induction rows as [|r rows IH]; cbn [occurrences length]; [lia|].
  destruct (cmp r k); lia.
Qed.

Lemma inject_Z_compare (a b : Z) :
  (inject_Z a ?= inject_Z b)%Q = (a ?= b).
Proof. unfold Qcompare. simpl. now rewrite !Z.mul_1_r. Qed.

(** Of two pairs of rows the smaller has the smaller count. *)
Lemma row_pair_lt (df : DataFrame value) (i j : nat) :
  key_cmp (row_pair df i) (row_pair df j) = Lt ->
  key_count (row_pair df i) < key_count (row_pair df j).
Proof.
  unfold row_pair. cbn [key_cmp key_count]. unfold num_cmp at 1.
  cbn [num_val]. rewrite inject_Z_compare.
  destruct (Z.compare_spec (count_missing (row_cells df i))
                           (count_missing (row_cells df j))) as [E|E|E].
  - rewrite E, num_cmp_refl. discriminate.
  - intros _. exact E.
  - discriminate.
Qed.

Lemma ascending_counts (df : DataFrame value) (l : list (list num * Z)) :
  ascending key_cmp l ->
  Forall (fun e => In (fst e) (row_pairs df)) l ->
  StronglySorted Z.lt (map (fun e => key_count (fst e)) l).
Proof.
  unfold ascending.
  induction l as [|x t IH]; simpl; intros Hs Hin; [constructor|].
  apply StronglySorted_inv in Hs. destruct Hs as [Ht Hx].
  inversion Hin as [|? ? Hx0 Ht0]; subst.
  constructor; [now apply IH|].
  rewrite Forall_map. rewrite Forall_forall in *.
  intros y Hy. specialize (Hx y Hy). specialize (Ht0 y Hy).
  unfold row_pairs in Hx0, Ht0. apply in_map_iff in Hx0, Ht0.
  destruct Hx0 as [i [Hi _]]. destruct Ht0 as [j [Hj _]].
  simpl in Hx. rewrite <- Hi, <- Hj in *. now apply row_pair_lt.
Qed.

Lemma increasing_length (l : list Z) (lo hi : Z) :
  StronglySorted Z.lt l ->
  Forall (fun x => lo <= x <= hi) l ->
  lo <= hi + 1 ->
  Z.of_nat (length l) <= hi - lo + 1.
Proof.
  revert lo. induction l as [|a t IH]; intros lo Hs Hb Hlo; simpl length; [lia|].
  apply StronglySorted_inv in Hs. destruct Hs as [Ht Ha].
  inversion Hb as [|? ? Hab Htb]; subst.
  assert (Hb' : Forall (fun x => a + 1 <= x <= hi) t).
  { rewrite Forall_forall in *. intros x Hx.
    specialize (Ha x Hx). specialize (Htb x Hx). lia. }
  specialize (IH (a + 1) Ht Hb' ltac:(lia)). lia.
Qed.

Lemma row_cells_length (df : DataFrame value) (i : nat) :
  wf df -> length (row_cells df i) = ncols df.
Proof. intros [Hl _]. unfold row_cells. now rewrite row_at_length. Qed.

Lemma ratio_is_fraction (c : Z) (n : nat) :
  0 <= c <= Z.of_nat n -> n <> O -> is_fraction (NFloat (ratio c n)).
Proof.
  intros Hc Hn. destruct n as [|m]; [congruence|].
  eexists. split; [reflexivity|]. unfold Qle. simpl. split; lia.
Qed.

(** X12.  For every well-shaped dataset with at least one column, the
    row-wise summary has at most one group per possible count, that is at
    most [ncols + 1] groups, and at most one per row.  In every group the
    count of missing cells lies between 0 and the number of columns, the
    fraction between 0 and 1 and the group size between 1 and the number of
    rows. *)
Theorem row_groups_bounds (df : DataFrame value)
  (Hwf : wf df) (Hcols : columns df <> []) :
  exists s,
    summarize_row_nulls df = Some s /\
    len (entries s) <= Z.of_nat (ncols df) + 1 /\
    len (entries s) <= Z.of_nat (nrows df) /\
    Forall (group_in_bounds (Z.of_nat (ncols df)) (Z.of_nat (nrows df)))
           (entries s).
Proof.
  destruct (row_summary_table df Hwf Hcols) as (s & Hs & He).
  destruct (grouped_sorted_counts (list num) key_cmp key_cmp_refl key_cmp_antisym
              key_cmp_trans key_cmp_eq_compat
              (fun a b => Z.leb (snd b) (snd a)) (row_pairs df))
    as (Hasc & Hin & _).
  rewrite <- He in Hasc, Hin.
  assert (Hkeys : Forall (fun e => In (fst e) (row_pairs df)) (entries s)).
  { rewrite Forall_forall. intros [k c] Hkc. now apply (Hin k c). }
  assert (Hnc : ncols df <> O).
  { unfold ncols. destruct (columns df); [congruence | discriminate]. }
  assert (Hpair : forall i,
            0 <= count_missing (row_cells df i) <= Z.of_nat (ncols df)).
  { intro i. pose proof (count_missing_bounds (row_cells df i)) as Hb.
    now rewrite (row_cells_length df i Hwf) in Hb. }
  exists s. split; [exact Hs|]. split; [|split].
  - pose proof (ascending_counts df (entries s) Hasc Hkeys) as Hinc.
    pose proof (increasing_length _ 0 (Z.of_nat (ncols df)) Hinc) as Hlen.
    rewrite length_map in Hlen. unfold len.
    assert (Hb : Forall (fun x => 0 <= x <= Z.of_nat (ncols df))
                   (map (fun e => key_count (fst e)) (entries s))).
    { rewrite Forall_map. rewrite Forall_forall in *. intros e He'.
      specialize (Hkeys e He'). unfold row_pairs in Hkeys.
      apply in_map_iff in Hkeys. destruct Hkeys as [i [Hi _]].
      rewrite <- Hi. apply Hpair. }
    specialize (Hlen Hb ltac:(lia)). lia.
  - unfold len. rewrite He, !sort_by_length.
    pose proof (group_size_length key_cmp (row_pairs df)) as Hl.
    rewrite row_pairs_length in Hl. lia.
  - rewrite Forall_forall. intros [k c] Hkc.
    destruct (Hin k c Hkc) as [Hk Hc].
    pose proof (occurrences_pos (list num) key_cmp key_cmp_refl k _ Hk) as Hpos.
    pose proof (occurrences_bounds key_cmp k (row_pairs df)) as Hocc.
    rewrite row_pairs_length in Hocc.
    unfold row_pairs in Hk. apply in_map_iff in Hk. destruct Hk as [i [Hi _]].
    unfold group_in_bounds. simpl fst. simpl snd. rewrite <- Hi.
    do 2 eexists. split; [reflexivity|].
    split; [eexists; split; [reflexivity | apply Hpair]|].
    split; [now apply ratio_is_fraction | lia].
Qed.

Lemma row_groups_bounds_witness :
  wf four_rows /\ columns four_rows <> [] /\
  exists s, summarize_row_nulls four_rows = Some s /\ len (entries s) <= 3.
Proof.
  split; [exact four_rows_wf|]. split; [discriminate|].
  destruct (row_groups_bounds four_rows four_rows_wf ltac:(discriminate))
    as (s & Hs & Hlen & _).
  exists s. split; [exact Hs | exact Hlen].
Defined.

Lemma group_size_repeat (p : list num) (m : nat) :
  group_size key_cmp (repeat p (S m)) = [(p, Z.of_nat (S m))].
Proof.
  induction m as [|m IH]; [reflexivity|].
  change (repeat p (S (S m))) with (p :: repeat p (S m)).
  cbn [group_size fold_right]. fold (group_size key_cmp (repeat p (S m))).
  rewrite IH. cbn [tally]. rewrite key_cmp_refl.
  do 2 f_equal. lia.
Qed.

(** X13.  For a well-shaped dataset with at least one row and one column and
    no missing cell, the row-wise summary is a single group: count 0,
    fraction 0 over the number of columns, and all the rows in it. *)
Theorem complete_dataset_single_group (df : DataFrame value)
  (Hwf : wf df) (Hrows : index df <> []) (Hcols : columns df <> [])
  (Hnone : no_missing df) :
  summarize_row_nulls df =
  Some (mkCounts [LStr "columns_missing"; LStr "percent_missing"]
          [ ([NInt 0; NFloat (ratio 0 (ncols df))], Z.of_nat (nrows df)) ]).
Proof.
  rewrite (summarize_row_nulls_eq df Hwf), (row_pairs_kept df Hcols).
  assert (Hpairs : row_pairs df =
                   repeat [NInt 0; NFloat (ratio 0 (ncols df))] (nrows df)).
  { unfold row_pairs.
    rewrite (map_ext (row_pair df)
               (fun _ => [NInt 0; NFloat (ratio 0 (ncols df))])).
    - now rewrite map_const, length_seq.
    - intro i. unfold row_pair. now rewrite (no_missing_row df i Hnone). }
  rewrite Hpairs. unfold nrows.
  destruct (index df) as [|l ls]; [congruence|].
  cbn [length]. rewrite group_size_repeat. reflexivity.
Qed.

Lemma complete_frame_facts :
  let df := mkFrame [LInt 0; LInt 1] [LStr "A"] [[VInt 1; VInt 2]] in
  wf df /\ index df <> [] /\ columns df <> [] /\ no_missing df.
Proof.
  simpl. split; [split; [reflexivity | repeat constructor]|].
  split; [discriminate|]. split; [discriminate|]. repeat constructor.
Qed.

Lemma complete_dataset_single_group_witness :
  let df := mkFrame [LInt 0; LInt 1] [LStr "A"] [[VInt 1; VInt 2]] in
  wf df /\ index df <> [] /\ columns df <> [] /\ no_missing df /\
  summarize_row_nulls df =
  Some (mkCounts [LStr "columns_missing"; LStr "percent_missing"]
          [ ([NInt 0; NFloat (Fin (0 # 1))], 2) ]).
Proof.
  destruct complete_frame_facts as (Hwf & Hr & Hc & Hn).
  intro df. split; [exact Hwf|]. split; [exact Hr|]. split; [exact Hc|].
  split; [exact Hn|].
  exact (complete_dataset_single_group _ Hwf Hr Hc Hn).
Defined.

(** X14.  For every well-shaped dataset with at least one row, every
    [rows_missing] of the column-wise summary lies between 0 and the number
    of rows, and every [percent_missing] is a number between 0 and 1. *)
Theorem column_summary_bounds (df : DataFrame value)
  (Hwf : wf df) (Hrows : index df <> []) :
  exists r rm pm,
    summarize_column_nulls df = Some r /\
    get_column r "rows_missing" = Some rm /\
    get_column r "percent_missing" = Some pm /\
    Forall (is_count_upto (Z.of_nat (nrows df))) rm /\
    Forall is_fraction pm.
Proof.
  assert (Hn : nrows df <> O).
  { unfold nrows. destruct (index df); [congruence | discriminate]. }
  destruct Hwf as [_ Hcols]. rewrite Forall_forall in Hcols.
  do 3 eexists. split; [apply summarize_column_nulls_eq|].
  split; [reflexivity|]. split; [reflexivity|].
  split; rewrite Forall_map, Forall_forall; intros c Hc;
    pose proof (count_missing_bounds c) as Hb;
    rewrite (Hcols c Hc) in *.
  - eexists. split; [reflexivity | exact Hb].
  - now apply ratio_is_fraction.
Qed.

Lemma column_summary_bounds_witness :
  wf abc_frame /\ index abc_frame <> [] /\
  exists r rm,
    summarize_column_nulls abc_frame = Some r /\
    get_column r "rows_missing" = Some rm /\
    Forall (is_count_upto 5) rm.
Proof.
  split; [exact abc_frame_wf|]. split; [discriminate|].
  destruct (column_summary_bounds abc_frame abc_frame_wf ltac:(discriminate))
    as (r & rm & pm & Hr & Hrm & _ & Hb & _).
  exists r, rm. split; [exact Hr|]. split; [exact Hrm | exact Hb].
Defined.

(** ** The two summaries count the same cells *)

Lemma count_missing_cons (v : value) (l : list value) :
  count_missing (v :: l) = Z.b2z (isnull_value v) + count_missing l.
Proof.
  unfold count_missing. simpl filter.
  destruct (isnull_value v); cbn [Z.b2z length]; lia.
Qed.

Lemma zsum_map_add {A} (f g : A -> Z) (l : list A) :
  zsum (map (fun x => f x + g x) l) = zsum (map f l) + zsum (map g l).
Proof.
  unfold zsum. induction l as [|x t IH]; simpl; [reflexivity|].
  rewrite IH. lia.
Qed.

Lemma zsum_map_zero {A} (l : list A) : zsum (map (fun _ => 0) l) = 0.
Proof. unfold zsum. induction l as [|x t IH]; simpl; [reflexivity | exact IH]. Qed.

Lemma zsum_isnull (l : list value) :
  zsum (map (fun v => Z.b2z (isnull_value v)) l) = count_missing l.
Proof.
  induction l as [|v t IH]; [reflexivity|].
  rewrite count_missing_cons, <- IH. reflexivity.
Qed.

Lemma nth_seq_self {A} (d : A) (l : list A) :
  map (fun i => nth i l d) (seq 0 (length l)) = l.
Proof.
  apply (nth_ext _ _ d d); [now rewrite length_map, length_seq|].
  intros n Hn. rewrite length_map, length_seq in Hn.
  now rewrite (nth_map_seq (fun i => nth i l d) (length l) n d Hn).
Qed.

(** Counting the missing cells row by row or column by column gives the same
    total. *)
Lemma count_by_rows_or_columns (d : value) (cols : list (list value)) (n : nat) :
  Forall (fun c => length c = n) cols ->
  zsum (map (fun i => count_missing (row_at d cols i)) (seq 0 n)) =
  zsum (map count_missing cols).
Proof.
  induction cols as [|c cs IH]; intro H.
  - unfold row_at. simpl map at 1. apply zsum_map_zero.
  - inversion H as [|? ? Hc Hcs]; subst.
    unfold row_at. cbn [map].
    rewrite (map_ext _ (fun i => Z.b2z (isnull_value (nth i c d))
                                 + count_missing (row_at d cs i)))
      by (intro i; apply count_missing_cons).
    rewrite zsum_map_add. rewrite (IH Hcs).
    rewrite <- (map_map (fun i => nth i c d)
                        (fun v => Z.b2z (isnull_value v))).
    rewrite nth_seq_self, zsum_isnull. reflexivity.
Qed.

Lemma total_missing_insert_by (le : list num * Z -> list num * Z -> bool) x l :
  total_missing (insert_by le x l) = key_count (fst x) * snd x + total_missing l.
Proof.
  induction l as [|y t IH]; cbn [insert_by total_missing].
  - destruct x; simpl; lia.
  - destruct (le x y); cbn [total_missing].
    + destruct x; simpl; lia.
    + destruct y. rewrite IH. lia.
Qed.

Lemma total_missing_sort_by (le : list num * Z -> list num * Z -> bool) l :
  total_missing (sort_by le l) = total_missing l.
Proof.
  induction l as [|x t IH]; cbn [sort_by fold_right]; [reflexivity|].
  fold (sort_by le t). rewrite total_missing_insert_by, IH.
  destruct x; reflexivity.
Qed.

Lemma total_missing_tally (k : list num) (acc : list (list num * Z)) :
  (forall k' c, In (k', c) acc -> key_cmp k k' = Eq -> key_count k' = key_count k) ->
  total_missing (tally key_cmp k acc) = total_missing acc + key_count k.
Proof.
  induction acc as [|[k' c] rest IH]; intro H; cbn [tally total_missing]; [lia|].
  destruct (key_cmp k k') eqn:E; cbn [total_missing].
  - rewrite (H k' c (or_introl eq_refl) E). lia.
  - lia.
  - rewrite IH; [lia|]. intros k'' c'' Hin. apply (H k'' c''). now right.
Qed.

Lemma row_pair_count_eq (df : DataFrame value) (i j : nat) :
  key_cmp (row_pair df i) (row_pair df j) = Eq ->
  key_count (row_pair df j) = key_count (row_pair df i).
Proof. intro H. now rewrite (row_pair_eq df i j H). Qed.

Lemma total_missing_rows (df : DataFrame value) (l : list nat) :
  total_missing (group_size key_cmp (map (row_pair df) l)) =
  zsum (map (fun i => count_missing (row_cells df i)) l).
Proof.
  induction l as [|i l IH]; [reflexivity|].
  cbn [map group_size fold_right].
  fold (group_size key_cmp (map (row_pair df) l)).
  rewrite total_missing_tally.
  - rewrite IH. unfold zsum. cbn [fold_right].
    change (key_count (row_pair df i)) with (count_missing (row_cells df i)).
    lia.
  - intros k' c Hin Heq.
    apply (group_size_keys (list num) key_cmp _ (k', c)) in Hin. simpl in Hin.
    apply in_map_iff in Hin. destruct Hin as [j [Hj _]]. subst k'.
    now apply row_pair_count_eq.
Qed.

Lemma int_sum_counts (cols : list (list value)) :
  int_sum (map (fun c => NInt (count_missing c)) cols) =
  zsum (map count_missing cols).
Proof.
  unfold zsum. induction cols as [|c cs IH]; simpl; [reflexivity|].
  now rewrite IH.
Qed.

(** X15.  For every well-shaped dataset the two summaries agree on the
    number of missing cells: the sum of [rows_missing] over the columns
    equals the sum over the row groups of [columns_missing] times the size of
    the group. *)
Theorem summaries_count_the_same_cells (df : DataFrame value) (Hwf : wf df) :
  exists r s rm,
    summarize_column_nulls df = Some r /\
    summarize_row_nulls df = Some s /\
    get_column r "rows_missing" = Some rm /\
    int_sum rm = total_missing (entries s).
Proof.
  do 3 eexists.
  split; [apply summarize_column_nulls_eq|].
  split; [apply (summarize_row_nulls_eq df Hwf)|].
  split; [reflexivity|].
  simpl entries. rewrite !total_missing_sort_by, int_sum_counts.
  destruct Hwf as [Hlen Hcols].
  destruct (columns df) as [|c cs] eqn:Ec.
  - rewrite (row_pairs_dropped df Ec).
    unfold ncols in Hlen. rewrite Ec in Hlen.
    destruct (data df); [reflexivity | discriminate].
  - rewrite (row_pairs_kept df) by (rewrite Ec; discriminate).
    unfold row_pairs. rewrite total_missing_rows.
    unfold row_cells. symmetry.
    apply (count_by_rows_or_columns (VInt 0) (data df) (nrows df) Hcols).
Qed.

Lemma summaries_count_the_same_cells_witness :
  wf abc_frame /\
  exists r s rm,
    summarize_column_nulls abc_frame = Some r /\
    summarize_row_nulls abc_frame = Some s /\
    get_column r "rows_missing" = Some rm /\
    int_sum rm = total_missing (entries s).
Proof.
  split; [exact abc_frame_wf|].
  exact (summaries_count_the_same_cells abc_frame abc_frame_wf).
Defined.
